(** * Kava governance: the committee keeper and the cdp genesis

    A shallow embedding of [x/committee/keeper/proposal.go] and of
    [InitGenesis] in [x/cdp/genesis.go], with the properties their
    specification states about them.

    Go functions become state-passing functions over the part of the
    [sdk.Context] they touch.  A call either returns (with or without an
    [sdk.Error]) or panics; all three are results of the embedding. *)

From Stdlib Require Import ZArith NArith String List Lia.
From Stdlib Require QArith Qround.
From stdpp Require Import base option list gmap strings pretty.

Local Open Scope string_scope.
Local Open Scope Z_scope.

(** ** Results of a Go call *)

(** The value of a panic, the [interface{}] given to [panic] and returned
    by [recover]: a value that is not nil, held as the text [%s] prints
    for it, or nil, after [panic(nil)].  A text stands for the panic with
    that text. *)
Inductive PanicValue : Type :=
| PanicText (s : string)
| PanicNil.
Bind Scope string_scope with PanicValue.
Coercion PanicText : string >-> PanicValue.

(** [Ok a]: the call returned [a] and a nil error; [Err e]: it returned
    the error [e]; [Panic r]: it panicked with the value [r] and nothing
    below it on the stack recovered. *)
Inductive Result (E A : Type) : Type :=
| Ok (a : A)
| Err (e : E)
| Panic (r : PanicValue).
Arguments Ok {E A} a.
Arguments Err {E A} e.
Arguments Panic {E A} r.

Module committee.

(** ** Data model (package [types]) *)

(** [sdk.AccAddress] is a byte string. *)
Definition Address : Type := string.

(** [time.Time] and [time.Duration], as integers on one time line. *)
Definition Time : Type := Z.
Definition Duration : Type := Z.

(** [sdk.Dec] of cosmos-sdk: a fixed-point number with 18 decimal places,
    held as the big integer [d * 10^18]. *)
Definition Dec : Type := Z.
Definition Precision : Z := 18.
Definition precisionReuse : Z := 10 ^ Precision.
Definition DecimalPrecisionBits : Z := 60.

(** [big.Int.BitLen]: the length of the absolute value in bits, 0 for 0. *)
Definition BitLen (x : Z) : Z :=
  if Z.eqb x 0 then 0 else Z.log2 (Z.abs x) + 1.

(** [sdk.NewDec(i)]. *)
Definition NewDec (i : Z) : Dec := i * precisionReuse.

(** [Dec.MulInt64]: the product with an integer, exact; it panics when the
    product is longer than 255 + 60 bits. *)
Definition MulInt64 {E} (d : Dec) (i : Z) : Result E Dec :=
  let mul := d * i in
  if Z.ltb (255 + DecimalPrecisionBits) (BitLen mul)
  then Panic "Int overflow"
  else Ok mul.

(** [Dec.GTE]. *)
Definition GTE (d d2 : Dec) : bool := Z.geb d d2.

(** The rational number a [Dec] stands for. *)
Definition Dec_toQ (d : Dec) : QArith_base.Q :=
  QArith_base.Qmake d (Z.to_pos precisionReuse).

(** A 64-bit unsigned integer after an addition. *)
Definition wrap64 (n : N) : N := (n mod 2 ^ 64)%N.

(** [fmt.Sprintf("%d", n)]. *)
Definition Sprintf_d (n : N) : string := pretty n.

(** [sdk.Error].  The constructors are the error makers the keeper calls;
    [ErrExternal] is any other [sdk.Error], as a collaborator (a handler,
    a [ValidateBasic]) returns it. *)
Inductive Error : Type :=
| ErrUnknownCommittee (codespace : string) (id : N)
| ErrUnknownProposal (codespace : string) (id : N)
| ErrProposalExpired (codespace : string) (blockTime deadline : Time)
| ErrInvalidPubProposal (codespace : string) (msg : string)
| ErrNoProposalHandlerExists (codespace : string) (route : string)
| ErrUnauthorized (msg : string)
| ErrExternal (codespace : string) (code : N) (msg : string).

(** [types.PubProposal] is an interface; a value of it is nil or an object
    seen through its methods. *)
Record Content : Type := {
  ProposalRoute : string;
  ValidateBasic : option Error;
  Title : string
}.
Definition PubProposal : Type := option Content.

(** Modelled from the spec: the [Permission] interface of package [types]
    (not among the sources), "a predicate over proposal content deciding
    whether a committee may enact it". *)
Record Permission : Type := { Allows : PubProposal -> bool }.

Record Committee : Type := {
  com_ID : N;
  Members : list Address;
  Permissions : list Permission;
  VoteThreshold : Dec;
  ProposalDuration : Duration
}.

(** Modelled from the spec: [Committee.HasMember] of package [types],
    membership of an address in [Members]. *)
Definition HasMember (com : Committee) (addr : Address) : bool :=
  existsb (String.eqb addr) (Members com).

(** Modelled from the spec: [Committee.HasPermissionsFor] of package
    [types], "true iff at least one permission in the set authorizes the
    proposal". *)
Definition HasPermissionsFor (com : Committee) (p : PubProposal) : bool :=
  existsb (fun perm => Allows perm p) (Permissions com).

Record Proposal : Type := {
  pr_PubProposal : PubProposal;
  pr_ID : N;
  pr_CommitteeID : N;
  Deadline : Time
}.

(** Modelled from the spec: [Proposal.HasExpiredBy] of package [types]; a
    proposal has expired by [t] when its deadline is at or before [t]. *)
Definition HasExpiredBy (pr : Proposal) (t : Time) : bool :=
  Z.leb (Deadline pr) t.

(** [pr.ProposalRoute()] goes through the embedded interface value and
    dereferences nil when the proposal has no content. *)
Definition pr_ProposalRoute {E} (pr : Proposal) : Result E string :=
  match pr_PubProposal pr with
  | Some c => Ok (ProposalRoute c)
  | None => Panic "invalid memory address or nil pointer dereference"
  end.

Record Vote : Type := {
  ProposalID : N;
  Voter : Address
}.

Record Event : Type := {
  ev_Type : string;
  ev_Attributes : list (string * string)
}.

Definition EventTypeProposalSubmit : string := "proposal_submit".
Definition EventTypeProposalVote : string := "proposal_vote".
Definition EventTypeProposalClose : string := "proposal_close".
Definition AttributeKeyCommitteeID : string := "committee_id".
Definition AttributeKeyProposalID : string := "proposal_id".
Definition AttributeKeyProposalCloseStatus : string := "status".
Definition AttributeValueProposalTimeout : string := "timeout".

(** ** The store *)

(** The multistore, by key space: the committee module's committees,
    proposals, votes (keyed by proposal and voter) and ID counter, and
    [others] for the key spaces of every other module. *)
Record Store : Type := {
  committees : gmap N Committee;
  proposals : gmap N Proposal;
  votes : gmap (N * Address) Vote;
  nextProposalID : N;
  others : gmap string string
}.

(** The writes the keeper makes to its key spaces. *)
Inductive StoreOp : Type :=
| OpSetProposal (pr : Proposal)
| OpDeleteProposal (proposalID : N)
| OpSetNextProposalID (id : N)
| OpSetVote (vote : Vote)
| OpDeleteVote (proposalID : N) (voter : Address).

Definition set_proposals (f : gmap N Proposal -> gmap N Proposal) (s : Store) : Store :=
  {| committees := committees s; proposals := f (proposals s); votes := votes s;
     nextProposalID := nextProposalID s; others := others s |}.

Definition set_votes (f : gmap (N * Address) Vote -> gmap (N * Address) Vote) (s : Store) : Store :=
  {| committees := committees s; proposals := proposals s; votes := f (votes s);
     nextProposalID := nextProposalID s; others := others s |}.

Definition set_nextProposalID (id : N) (s : Store) : Store :=
  {| committees := committees s; proposals := proposals s; votes := votes s;
     nextProposalID := id; others := others s |}.

Definition set_others (f : gmap string string -> gmap string string) (s : Store) : Store :=
  {| committees := committees s; proposals := proposals s; votes := votes s;
     nextProposalID := nextProposalID s; others := f (others s) |}.

(** Modelled from the spec: the store accessors of [keeper.go] (not among
    the sources).  A proposal is stored under its ID, a vote under its
    (ProposalID, Voter) pair, "upserts by (ProposalID, Voter) key". *)
Definition applyOp (op : StoreOp) (s : Store) : Store :=
  match op with
  | OpSetProposal pr => set_proposals (insert (pr_ID pr) pr) s
  | OpDeleteProposal id => set_proposals (delete id) s
  | OpSetNextProposalID id => set_nextProposalID id s
  | OpSetVote v => set_votes (insert (ProposalID v, Voter v) v) s
  | OpDeleteVote id voter => set_votes (delete (id, voter)) s
  end.

Section Keeper.

(** What a handler can reach besides the multistore of the context it is
    given: the variables its closure captured, and what a context shares
    by reference with the contexts derived from it (the gas meter). *)
Variable W : Type.

(** The text [%s] prints for an [sdk.Error] (its [Error] method, defined
    in cosmos-sdk). *)
Variable ErrorString : Error -> string.

(** The part of [sdk.Context] the keeper uses. *)
Record Context : Type := {
  ms : Store;
  blockTime : Time;
  events : list Event;
  env : W
}.

Definition with_ms (s : Store) (ctx : Context) : Context :=
  {| ms := s; blockTime := blockTime ctx; events := events ctx; env := env ctx |}.

Definition with_events (evs : list Event) (ctx : Context) : Context :=
  {| ms := ms ctx; blockTime := blockTime ctx; events := evs; env := env ctx |}.

Definition with_env (w : W) (ctx : Context) : Context :=
  {| ms := ms ctx; blockTime := blockTime ctx; events := events ctx; env := w |}.

(** [ctx.CacheContext()] of cosmos-sdk: a context on a cache of the
    multistore, with an event manager of its own, and the function that
    writes the cache back to the parent's multistore. *)
Definition CacheContext (ctx : Context) : Context * (Context -> Context -> Context) :=
  ({| ms := ms ctx; blockTime := blockTime ctx; events := []; env := env ctx |},
   fun cacheCtx parent => with_ms (ms cacheCtx) parent).

(** What a call on a derived context leaves behind in its parent when the
    cache is never written: the shared environment only. *)
Definition leftBy (cacheCtx : Context) (parent : Context) : Context :=
  with_env (env cacheCtx) parent.

(** A handler call ends in one of three ways: it returns nil, it returns
    an error, or it panics with a value, which may be nil. *)
Inductive HandlerOutcome : Type :=
| HOk
| HErr (err : Error)
| HPanic (r : PanicValue).

(** [govtypes.Handler]: [func(ctx sdk.Context, content Content) sdk.Error].
    The context returned is the one the call leaves, also when it ends in
    a panic: writes made before the panic stay made. *)
Definition Handler : Type := Context -> PubProposal -> HandlerOutcome * Context.

Record Keeper : Type := {
  codespace : string;
  router : gmap string Handler
}.

(** The router of cosmos-sdk's gov module. *)
Definition HasRoute (rtr : gmap string Handler) (path : string) : bool :=
  bool_decide (is_Some (rtr !! path)).

Definition GetRoute (rtr : gmap string Handler) (path : string) : Result Error Handler :=
  match rtr !! path with
  | Some h => Ok h
  | None => Panic ("route " ++ path ++ " does not exist")
  end.

(** ** Keeper calls as state-passing computations *)

Definition M (A : Type) : Type := Context -> Result Error A * Context.

Definition ret {A} (a : A) : M A := fun ctx => (Ok a, ctx).
Definition throw {A} (e : Error) : M A := fun ctx => (Err e, ctx).
Definition panic {A} (r : string) : M A := fun ctx => (Panic r, ctx).
Definition bind {A B} (m : M A) (f : A -> M B) : M B :=
  fun ctx =>
    match m ctx with
    | (Ok a, ctx') => f a ctx'
    | (Err e, ctx') => (Err e, ctx')
    | (Panic r, ctx') => (Panic r, ctx')
    end.
Definition getCtx : M Context := fun ctx => (Ok ctx, ctx).
Definition lift {A} (r : Result Error A) : M A := fun ctx => (r, ctx).
Definition write (op : StoreOp) : M unit :=
  fun ctx => (Ok tt, with_ms (applyOp op (ms ctx)) ctx).
Definition EmitEvent (ev : Event) : M unit :=
  fun ctx => (Ok tt, with_events (events ctx ++ [ev]) ctx).

Arguments ret {A} a _ /.
Arguments throw {A} e _ /.
Arguments panic {A} r _ /.
Arguments getCtx _ /.
Arguments lift {A} r _ /.

Notation "'let*' x ':=' m 'in' k" := (bind m (fun x => k))
  (at level 10, x name, m at level 100, k at level 200).
Notation "m ';;' k" := (bind m (fun _ => k))
  (at level 100, k at level 200, right associativity).

(** The writes of a list, first to last. *)
Fixpoint writes (ops : list StoreOp) : M unit :=
  match ops with
  | [] => ret tt
  | op :: ops' => write op ;; writes ops'
  end.

(** An iterator of the store works on the records it finds when it is
    opened and hands them to the callback one by one until the callback
    asks to stop. *)
Fixpoint iterate {A S : Type} (cb : A -> S -> S * bool) (l : list A) (s : S) : S :=
  match l with
  | [] => s
  | x :: l' => let (s', stop) := cb x s in if stop then s' else iterate cb l' s'
  end.

Fixpoint iterateM {A : Type} (cb : A -> M bool) (l : list A) : M unit :=
  match l with
  | [] => ret tt
  | x :: l' => let* stop := cb x in if stop then ret tt else iterateM cb l'
  end.

(** ** Store accessors ([keeper.go]) *)

(** Modelled from the spec: [GetCommittee] of [keeper.go],
    "GetCommittee(id) -> (Committee, found)". *)
Definition GetCommittee (ctx : Context) (committeeID : N) : option Committee :=
  committees (ms ctx) !! committeeID.

(** Modelled from the spec: [GetProposal] of [keeper.go],
    "GetProposal(id) -> (Proposal, found)". *)
Definition GetProposal (ctx : Context) (proposalID : N) : option Proposal :=
  proposals (ms ctx) !! proposalID.

(** Modelled from the spec: [StoreNewProposal] of [keeper.go], "allocates
    the next sequential ID, builds the Proposal, persists it, persists the
    advanced counter".  Its caller expects an error result; nothing in the
    description lets it fail. *)
Definition StoreNewProposal (pubProposal : PubProposal) (committeeID : N)
    (deadline : Time) : M N :=
  let* ctx := getCtx in
  let newProposalID := nextProposalID (ms ctx) in
  let proposal := {| pr_PubProposal := pubProposal; pr_ID := newProposalID;
                     pr_CommitteeID := committeeID; Deadline := deadline |} in
  write (OpSetProposal proposal) ;;
  write (OpSetNextProposalID (wrap64 (newProposalID + 1))) ;;
  ret newProposalID.

(** The records an iterator over the proposals finds. *)
Definition proposalRecords (s : Store) : list Proposal :=
  (map_to_list (proposals s)).*2.

(** The entries an iterator over the votes of one proposal finds, those
    whose key starts with the proposal's ID, and the records it decodes
    from them. *)
Definition voteEntries (s : Store) (proposalID : N) : list (N * Address * Vote) :=
  map_to_list (filter (fun kv => fst (fst kv) = proposalID) (votes s)).

Definition voteRecords (s : Store) (proposalID : N) : list Vote :=
  (voteEntries s proposalID).*2.

(** Modelled from the spec: [IterateProposals] of [keeper.go], "produces a
    lazy sequence of all stored proposals in an iteration order guaranteed
    stable for a given store state", with "iteration snapshot semantics"
    and a visitor that "can request early stop". *)
Definition IterateProposals (cb : Proposal -> M bool) : M unit :=
  fun ctx => iterateM cb (proposalRecords (ms ctx)) ctx.

(** Modelled from the spec: [IterateVotes] of [keeper.go], "lazy sequence
    of votes for one proposal".  The callbacks of this file write to a
    variable of their caller, the [S] here. *)
Definition IterateVotes {S : Type} (ctx : Context) (proposalID : N)
    (cb : Vote -> S -> S * bool) (s : S) : S :=
  iterate cb (voteRecords (ms ctx) proposalID) s.

(** Modelled from the spec: [SetVote], [DeleteVote] and [DeleteProposal]
    of [keeper.go]. *)
Definition SetVote (vote : Vote) : M unit := write (OpSetVote vote).
Definition DeleteVote (proposalID : N) (voter : Address) : M unit :=
  write (OpDeleteVote proposalID voter).
Definition DeleteProposal (proposalID : N) : M unit :=
  write (OpDeleteProposal proposalID).

(** ** [proposal.go] *)

(** The deferred function of [ValidatePubProposal], run when the handler
    call panicked with the value [r]: [recover()] stops the panic and
    returns [r]; only when [r] is not nil is the result [returnErr]
    replaced by the error.  After [panic(nil)] the function returns the
    result it had. *)
Definition recovered (k : Keeper) (r : PanicValue)
    (returnErr : Result Error unit) : Result Error unit :=
  match r with
  | PanicText s =>
      Err (ErrInvalidPubProposal (codespace k) ("proposal handler panicked: " ++ s))
  | PanicNil => returnErr
  end.

(** ValidatePubProposal checks if a pubproposal is valid.  The handler
    call is the only call after the [defer]; when it panics no [return]
    has set the named result, which is still nil. *)
Definition ValidatePubProposal (k : Keeper) (pubProposal : PubProposal) : M unit :=
  fun ctx =>
  match pubProposal with
  | None => (Err (ErrInvalidPubProposal (codespace k) "pub proposal cannot be nil"), ctx)
  | Some c =>
    match ValidateBasic c with
    | Some err => (Err err, ctx)
    | None =>
      if negb (HasRoute (router k) (ProposalRoute c))
      then (Err (ErrNoProposalHandlerExists (codespace k) (ProposalRoute c)), ctx)
      else
        let (cacheCtx, _) := CacheContext ctx in
        match GetRoute (router k) (ProposalRoute c) with
        | Panic r => (Panic r, ctx)
        | Err e => (Err e, ctx)
        | Ok handler =>
          let (out, cacheCtx') := handler cacheCtx pubProposal in
          match out with
          | HPanic r => (recovered k r (Ok tt), leftBy cacheCtx' ctx)
          | HErr err => (Err err, leftBy cacheCtx' ctx)
          | HOk => (Ok tt, leftBy cacheCtx' ctx)
          end
        end
    end
  end.

(** A handler call on the live context. *)
Definition callHandler (handler : Handler) (pubProposal : PubProposal)
  : M (option Error) :=
  fun ctx =>
    let (out, ctx') := handler ctx pubProposal in
    match out with
    | HOk => (Ok None, ctx')
    | HErr err => (Ok (Some err), ctx')
    | HPanic r => (Panic r, ctx')
    end.

(** SubmitProposal adds a proposal to a committee so that it can be voted on. *)
Definition SubmitProposal (k : Keeper) (proposer : Address) (committeeID : N)
    (pubProposal : PubProposal) : M N :=
  let* ctx := getCtx in
  match GetCommittee ctx committeeID with
  | None => throw (ErrUnknownCommittee (codespace k) committeeID)
  | Some com =>
    if negb (HasMember com proposer)
    then throw (ErrUnauthorized "proposer not member of committee")
    else if negb (HasPermissionsFor com pubProposal)
    then throw (ErrUnauthorized "committee does not have permissions to enact proposal")
    else
      ValidatePubProposal k pubProposal ;;
      let deadline := blockTime ctx + ProposalDuration com in
      let* proposalID := StoreNewProposal pubProposal committeeID deadline in
      EmitEvent {| ev_Type := EventTypeProposalSubmit;
                   ev_Attributes :=
                     [(AttributeKeyCommitteeID, Sprintf_d (com_ID com));
                      (AttributeKeyProposalID, Sprintf_d proposalID)] |} ;;
      ret proposalID
  end.

(** AddVote submits a vote on a proposal. *)
Definition AddVote (k : Keeper) (proposalID : N) (voter : Address) : M unit :=
  let* ctx := getCtx in
  match GetProposal ctx proposalID with
  | None => throw (ErrUnknownProposal (codespace k) proposalID)
  | Some pr =>
    if HasExpiredBy pr (blockTime ctx)
    then throw (ErrProposalExpired (codespace k) (blockTime ctx) (Deadline pr))
    else
      match GetCommittee ctx (pr_CommitteeID pr) with
      | None => throw (ErrUnknownCommittee (codespace k) (pr_CommitteeID pr))
      | Some com =>
        if negb (HasMember com voter)
        then throw (ErrUnauthorized "voter must be a member of committee")
        else
          SetVote {| ProposalID := proposalID; Voter := voter |} ;;
          EmitEvent {| ev_Type := EventTypeProposalVote;
                       ev_Attributes :=
                         [(AttributeKeyCommitteeID, Sprintf_d (com_ID com));
                          (AttributeKeyProposalID, Sprintf_d (pr_ID pr))] |} ;;
          ret tt
      end
  end.

(** TallyVotes counts all the votes on a proposal. *)
Definition TallyVotes (ctx : Context) (proposalID : N) : Z :=
  let votes := IterateVotes ctx proposalID
                 (fun vote votes => ((votes ++ [vote])%list, false)) [] in
  Z.of_nat (length votes).

(** GetProposalResult calculates if a proposal currently has enough votes
    to pass. *)
Definition GetProposalResult (k : Keeper) (proposalID : N) : M bool :=
  let* ctx := getCtx in
  match GetProposal ctx proposalID with
  | None => throw (ErrUnknownProposal (codespace k) proposalID)
  | Some pr =>
    match GetCommittee ctx (pr_CommitteeID pr) with
    | None => throw (ErrUnknownCommittee (codespace k) (pr_CommitteeID pr))
    | Some com =>
      let numVotes := TallyVotes ctx proposalID in
      let* quorum := lift (MulInt64 (VoteThreshold com)
                                    (Z.of_nat (length (Members com)))) in
      let proposalResult := GTE (NewDec numVotes) quorum in
      ret proposalResult
    end
  end.

(** EnactProposal makes the changes proposed in a proposal. *)
Definition EnactProposal (k : Keeper) (proposalID : N) : M unit :=
  let* ctx := getCtx in
  match GetProposal ctx proposalID with
  | None => throw (ErrUnknownProposal (codespace k) proposalID)
  | Some pr =>
    ValidatePubProposal k (pr_PubProposal pr) ;;
    let* route := lift (pr_ProposalRoute pr) in
    let* handler := lift (GetRoute (router k) route) in
    let* err := callHandler handler (pr_PubProposal pr) in
    match err with
    | Some err => panic ("unexpected handler error: " ++ ErrorString err)
    | None => ret tt
    end
  end.

(** The writes of [DeleteProposalAndVotes], in the order it makes them. *)
Definition DeleteProposalAndVotes_ops (ctx : Context) (proposalID : N) : list StoreOp :=
  let votes := IterateVotes ctx proposalID
                 (fun vote votes => ((votes ++ [vote])%list, false)) [] in
  OpDeleteProposal proposalID
    :: map (fun v => OpDeleteVote (ProposalID v) (Voter v)) votes.

(** DeleteProposalAndVotes removes a proposal and its associated votes. *)
Definition DeleteProposalAndVotes (proposalID : N) : M unit :=
  let* ctx := getCtx in
  writes (DeleteProposalAndVotes_ops ctx proposalID).

(** CloseExpiredProposals removes proposals (and associated votes) that
    have past their deadline. *)
Definition CloseExpiredProposals : M unit :=
  let* ctx := getCtx in
  IterateProposals (fun proposal =>
    if HasExpiredBy proposal (blockTime ctx)
    then
      DeleteProposalAndVotes (pr_ID proposal) ;;
      EmitEvent {| ev_Type := EventTypeProposalClose;
                   ev_Attributes :=
                     [(AttributeKeyCommitteeID, Sprintf_d (pr_CommitteeID proposal));
                      (AttributeKeyProposalID, Sprintf_d (pr_ID proposal));
                      (AttributeKeyProposalCloseStatus, AttributeValueProposalTimeout)] |} ;;
      ret false
    else ret false).

End Keeper.

Arguments ms {W} c.
Arguments blockTime {W} c.
Arguments events {W} c.
Arguments env {W} c.
Arguments Build_Context {W} ms blockTime events env.
Arguments with_ms {W} s ctx.
Arguments with_events {W} evs ctx.
Arguments with_env {W} w ctx.
Arguments CacheContext {W} ctx.
Arguments leftBy {W} cacheCtx parent.
Arguments codespace {W} k.
Arguments router {W} k.
Arguments Build_Keeper {W} codespace router.
Arguments HasRoute {W} rtr path.
Arguments GetRoute {W} rtr path.
Arguments ret {W A} a _ /.
Arguments throw {W A} e _ /.
Arguments panic {W A} r _ /.
Arguments bind {W A B} m f _.
Arguments getCtx {W} _ /.
Arguments lift {W A} r _ /.
Arguments write {W} op _.
Arguments writes {W} ops _.
Arguments EmitEvent {W} ev _.
Arguments iterateM {W A} cb l _.
Arguments GetCommittee {W} ctx committeeID.
Arguments GetProposal {W} ctx proposalID.
Arguments StoreNewProposal {W} pubProposal committeeID deadline _.
Arguments IterateProposals {W} cb _.
Arguments IterateVotes {W S} ctx proposalID cb s.
Arguments SetVote {W} vote _.
Arguments DeleteVote {W} proposalID voter _.
Arguments DeleteProposal {W} proposalID _.
Arguments recovered {W} k r returnErr.
Arguments ValidatePubProposal {W} k pubProposal _.
Arguments callHandler {W} handler pubProposal _.
Arguments SubmitProposal {W} k proposer committeeID pubProposal _.
Arguments AddVote {W} k proposalID voter _.
Arguments TallyVotes {W} ctx proposalID.
Arguments GetProposalResult {W} k proposalID _.
Arguments EnactProposal {W} ErrorString k proposalID _.
Arguments DeleteProposalAndVotes_ops {W} ctx proposalID.
Arguments DeleteProposalAndVotes {W} proposalID _.
Arguments CloseExpiredProposals {W} _.

End committee.

Module cdp.

(** ** Genesis of the cdp module ([x/cdp/genesis.go]) *)

(** The run of a Go function over the state [St] behind its context: it
    returns, leaving a state, or it panics. *)
Inductive Run (St A : Type) : Type :=
| Returns (a : A) (st : St)
| Panics (r : string).
Arguments Returns {St A} a st.
Arguments Panics {St A} r.

Definition G (St A : Type) : Type := St -> Run St A.

Definition ret {St A} (a : A) : G St A := fun st => Returns a st.
Definition panic {St A} (r : string) : G St A := fun _ => Panics r.
Definition bind {St A B} (m : G St A) (f : A -> G St B) : G St B :=
  fun st =>
    match m st with
    | Returns a st' => f a st'
    | Panics r => Panics r
    end.

Notation "'let*' x ':=' m 'in' k" := (bind m (fun x => k))
  (at level 10, x name, m at level 100, k at level 200).
Notation "m ';;' k" := (bind m (fun _ => k))
  (at level 100, k at level 200, right associativity).

(** [for _, x := range l { body }]. *)
Fixpoint forEach {St A} (l : list A) (body : A -> G St unit) : G St unit :=
  match l with
  | [] => ret tt
  | x :: l' => body x ;; forEach l' body
  end.

Record CollateralParam : Type := {
  cp_Denom : string;
  cp_MarketID : string
}.

Record DebtParam : Type := { dp_Denom : string }.

Record Params : Type := {
  CollateralParams : list CollateralParam;
  DebtParams : list DebtParam
}.

(** A market of the pricefeed module's parameters. *)
Record Market : Type := { MarketID : string }.

Record Coin : Type := {
  Denom : string;
  Amount : Z
}.

Section Genesis.

(** The state behind the [sdk.Context]: the stores of all modules. *)
Variable St : Type.

(** Declarations of the module that the file uses and does not make: the
    account names of [types], the type of a CDP's principal and fees with
    its [Add], the deposits, and the text [%s] prints for a CDP. *)
Variables ModuleName LiquidatorMacc SavingsRateMacc : string.
Variable ModuleAccount : Type.
Variable Principal : Type.
Variable Principal_Add : Principal -> Principal -> Principal.
Variable Deposit : Type.

Record CDP : Type := {
  ID : N;
  Collateral : Coin;
  cdp_Principal : Principal;
  AccumulatedFees : Principal
}.

Variable CDP_String : CDP -> string.

Record GenesisState : Type := {
  gs_Params : Params;
  CDPs : list CDP;
  Deposits : list Deposit;
  StartingCdpID : N;
  DebtDenom : string;
  GovDenom : string;
  (** the result of [gs.Validate()]: nil, or an error with its text *)
  Validate : option string
}.

(** The [SupplyKeeper] interface. *)
Record SupplyKeeper : Type := {
  GetModuleAccount : string -> G St (option ModuleAccount)
}.

(** The [PricefeedKeeper] interface. *)
Record PricefeedKeeper : Type := {
  pk_GetParams : G St (list Market)
}.

(** The methods of the cdp [Keeper] that [InitGenesis] calls; a method may
    panic. *)
Record Keeper : Type := {
  SetParams : Params -> G St unit;
  SetTotalPrincipal : string -> string -> Z -> G St unit;
  SetCDP : CDP -> G St unit;
  IndexCdpByOwner : CDP -> G St unit;
  CalculateCollateralToDebtRatio : Coin -> Principal -> G St Z;
  IndexCdpByCollateralRatio : string -> N -> Z -> G St unit;
  IncrementTotalPrincipal : string -> Principal -> G St unit;
  SetNextCdpID : N -> G St unit;
  SetDebtDenom : string -> G St unit;
  SetGovDenom : string -> G St unit;
  SetDeposit : Deposit -> G St unit
}.

(** [collateralMap], a [map[string]int] filled from the markets. *)
Definition collateralMapOf (markets : list Market) : gmap string Z :=
  fold_left (fun m a => <[MarketID a := 1]> m) markets ∅.

(** InitGenesis sets initial genesis state for cdp module. *)
Definition InitGenesis (k : Keeper) (pk : PricefeedKeeper) (sk : SupplyKeeper)
    (gs : GenesisState) : G St unit :=
  match Validate gs with
  | Some err =>
      panic ("failed to validate " ++ ModuleName ++ " genesis state: " ++ err)
  | None =>
    (* check if the module accounts exists *)
    let* cdpModuleAcc := GetModuleAccount sk ModuleName in
    match cdpModuleAcc with
    | None => panic (ModuleName ++ " module account has not been set")
    | Some _ =>
    let* liqModuleAcc := GetModuleAccount sk LiquidatorMacc in
    match liqModuleAcc with
    | None => panic (LiquidatorMacc ++ " module account has not been set")
    | Some _ =>
    let* savingsRateMacc := GetModuleAccount sk SavingsRateMacc in
    match savingsRateMacc with
    | None => panic (SavingsRateMacc ++ " module account has not been set")
    | Some _ =>
    (* validate denoms *)
    let* markets := pk_GetParams pk in
    let collateralMap := collateralMapOf markets in
    forEach (CollateralParams (gs_Params gs)) (fun col =>
      match collateralMap !! cp_MarketID col with
      | None => panic (cp_Denom col ++ " collateral not found in pricefeed")
      | Some _ => ret tt
      end) ;;
    SetParams k (gs_Params gs) ;;
    (* set the per second fee rate for each collateral type *)
    forEach (CollateralParams (gs_Params gs)) (fun cp =>
      forEach (DebtParams (gs_Params gs)) (fun dp =>
        SetTotalPrincipal k (cp_Denom cp) (dp_Denom dp) 0)) ;;
    (* add cdps *)
    forEach (CDPs gs) (fun cdp =>
      if N.eqb (ID cdp) (StartingCdpID gs)
      then panic ("starting cdp id is assigned to an existing cdp: " ++ CDP_String cdp)
      else
        SetCDP k cdp ;;
        IndexCdpByOwner k cdp ;;
        let* ratio := CalculateCollateralToDebtRatio k (Collateral cdp)
                        (Principal_Add (cdp_Principal cdp) (AccumulatedFees cdp)) in
        IndexCdpByCollateralRatio k (Denom (Collateral cdp)) (ID cdp) ratio ;;
        IncrementTotalPrincipal k (Denom (Collateral cdp)) (cdp_Principal cdp)) ;;
    SetNextCdpID k (StartingCdpID gs) ;;
    SetDebtDenom k (DebtDenom gs) ;;
    SetGovDenom k (GovDenom gs) ;;
    forEach (Deposits gs) (fun d => SetDeposit k d)
    end end end
  end.

(** ** [ExportGenesis] *)

(** Declarations of the module that [ExportGenesis] uses and the file does
    not make: the type of the time of the previous savings distribution
    with its default, and the genesis state [NewGenesisState] builds. *)
Variable DistributionTime : Type.
Variable DefaultPreviousDistributionTime : DistributionTime.
Variable Exported : Type.
Variable NewGenesisState :
  Params -> list CDP -> list Deposit -> N -> string -> string ->
  DistributionTime -> Exported.

(** The methods of the cdp [Keeper] that [ExportGenesis] calls.  The two
    iterators are given by the records they find; a method may panic. *)
Record KeeperReads : Type := {
  GetParams : G St Params;
  cdpRecords : G St (list CDP);
  depositRecords : N -> G St (list Deposit);
  GetNextCdpID : G St N;
  GetDebtDenom : G St string;
  GetGovDenom : G St string;
  GetPreviousSavingsDistribution : G St (option DistributionTime)
}.

(** An iterator hands the records to the callback one by one until the
    callback asks to stop; [S] is what the callback keeps in the
    variables of its caller. *)
Fixpoint iterateS {A S : Type} (cb : A -> S -> G St (S * bool)) (l : list A)
    (s : S) : G St S :=
  match l with
  | [] => ret s
  | x :: l' =>
      let* r := cb x s in
      if snd r then ret (fst r) else iterateS cb l' (fst r)
  end.

Definition IterateAllCdps {S : Type} (k : KeeperReads)
    (cb : CDP -> S -> G St (S * bool)) (s : S) : G St S :=
  let* l := cdpRecords k in iterateS cb l s.

Definition IterateDeposits {S : Type} (k : KeeperReads) (cdpID : N)
    (cb : Deposit -> S -> G St (S * bool)) (s : S) : G St S :=
  let* l := depositRecords k cdpID in iterateS cb l s.

(** ExportGenesis export genesis state for cdp module. *)
Definition ExportGenesis (k : KeeperReads) : G St Exported :=
  let* params := GetParams k in
  let* acc :=
    IterateAllCdps k (fun cdp (acc : list CDP * list Deposit) =>
        let cdps := (fst acc ++ [cdp])%list in
        let* deposits :=
          IterateDeposits k (ID cdp) (fun deposit deposits =>
              ret ((deposits ++ [deposit])%list, false)) (snd acc) in
        ret ((cdps, deposits), false))
      ([], []) in
  let* cdpID := GetNextCdpID k in
  let* debtDenom := GetDebtDenom k in
  let* govDenom := GetGovDenom k in
  let* previous := GetPreviousSavingsDistribution k in
  let previousDistributionTime :=
    match previous with
    | Some t => t
    | None => DefaultPreviousDistributionTime
    end in
  ret (NewGenesisState params (fst acc) (snd acc) cdpID debtDenom govDenom
         previousDistributionTime).

End Genesis.

End cdp.

Import committee.

(** * Properties of the committee keeper *)

(** ** Well-formed stores *)

(** The keeper stores a proposal under its ID and a vote under its
    (ProposalID, Voter) pair; a store written through the keeper only has
    every record under the key its fields give. *)
Definition proposals_wf (s : Store) : Prop :=
  map_Forall (fun id pr => pr_ID pr = id) (proposals s).

Definition votes_wf (s : Store) : Prop :=
  map_Forall (fun key v => (ProposalID v, Voter v) = key) (votes s).

(** ** The claim about handler errors at enactment, as the specification
    words it *)

(** "A handler returning an error is normal and is surfaced": when the
    stored content passes the re-validation and the handler then returns
    an error on the live context, [EnactProposal] returns that error. *)
Definition EnactProposal_surfaces_handler_error {W} (ErrorString : Error -> string)
    (k : Keeper W) (ctx : Context W) (proposalID : N) : Prop :=
  forall pr c (handler : Handler W) err ctx1 ctx2,
    GetProposal ctx proposalID = Some pr ->
    pr_PubProposal pr = Some c ->
    ValidatePubProposal k (Some c) ctx = (Ok tt, ctx1) ->
    router k !! ProposalRoute c = Some handler ->
    handler ctx1 (Some c) = (HErr err, ctx2) ->
    exists ctx', EnactProposal ErrorString k proposalID ctx = (Err err, ctx').

(** ** The claim about the order of the deletions, as the specification
    words it *)

(** "collects all votes for the proposal, deletes them, then deletes the
    proposal": the writes are the deletions of the votes followed by the
    deletion of the proposal. *)
Definition deletes_votes_then_proposal {W} (ctx : Context W) (proposalID : N) : Prop :=
  DeleteProposalAndVotes_ops ctx proposalID =
    (map (fun v => OpDeleteVote (ProposalID v) (Voter v))
         (voteRecords (ms ctx) proposalID)
     ++ [OpDeleteProposal proposalID])%list.

(** ** The quorum, as the specification words it *)

(** "VoteThreshold × committee member count", a rational number. *)
Definition quorumQ (com : Committee) : QArith_base.Q :=
  QArith_base.Qmult (Dec_toQ (VoteThreshold com))
                    (QArith_base.inject_Z (Z.of_nat (length (Members com)))).

(** ** The store without a proposal and its votes *)

(** The store without the proposal [proposalID] and without the votes
    under a key that starts with [proposalID]. *)
Definition purge (proposalID : N) (s : Store) : Store :=
  set_votes (filter (fun kv => fst (fst kv) <> proposalID))
            (set_proposals (delete proposalID) s).

(** The event [CloseExpiredProposals] emits for a proposal. *)
Definition closeEvent (proposal : Proposal) : Event :=
  {| ev_Type := EventTypeProposalClose;
     ev_Attributes :=
       [(AttributeKeyCommitteeID, Sprintf_d (pr_CommitteeID proposal));
        (AttributeKeyProposalID, Sprintf_d (pr_ID proposal));
        (AttributeKeyProposalCloseStatus, AttributeValueProposalTimeout)] |}.

(** The store after the visit of the proposals [l] by the callback of
    [CloseExpiredProposals] at the time [now]. *)
Definition sweep (now : Time) (l : list Proposal) (s : Store) : Store :=
  fold_left (fun s pr => if HasExpiredBy pr now then purge (pr_ID pr) s else s) l s.

(** ** Sample data *)

Definition ex_content : Content :=
  {| ProposalRoute := "params"; ValidateBasic := None;
     Title := "raise the debt limit" |}.

Definition ex_allowAll : Permission := {| Allows := fun _ => true |}.

(** Three members, a threshold of one half, proposals open for 100. *)
Definition ex_committee : Committee :=
  {| com_ID := 1; Members := ["alice"; "bob"; "carol"];
     Permissions := [ex_allowAll]; VoteThreshold := 5 * 10 ^ 17;
     ProposalDuration := 100 |}.

Definition ex_store : Store :=
  {| committees := {[ 1%N := ex_committee ]}; proposals := ∅; votes := ∅;
     nextProposalID := 1; others := ∅ |}.

Definition ex_ctx : Context nat := Build_Context ex_store 0 [] 0%nat.

Definition ex_ErrorString (e : Error) : string :=
  match e with
  | ErrExternal _ _ msg => msg
  | ErrInvalidPubProposal _ msg => msg
  | ErrUnauthorized msg => msg
  | _ => "error"
  end.

(** A handler that counts its calls in its environment and returns an
    error from the third call on. *)
Definition ex_flaky : Handler nat :=
  fun ctx _ =>
    (if (env ctx <? 2)%nat then HOk
     else HErr (ErrExternal "params" 1 "parameter is not recognized"),
     with_env (S (env ctx)) ctx).

(** A handler that writes to the store it is given and then panics. *)
Definition ex_faulty : Handler nat :=
  fun ctx _ =>
    (HPanic "parameter not registered",
     with_ms (set_others (insert "debt_limit" "1000") (ms ctx)) ctx).

(** A handler that writes to the store it is given and then calls
    [panic(nil)]. *)
Definition ex_panic_nil : Handler nat :=
  fun ctx _ =>
    (HPanic PanicNil,
     with_ms (set_others (insert "debt_limit" "1000") (ms ctx)) ctx).

Definition ex_keeper_panic_nil : Keeper nat :=
  Build_Keeper "committee" {[ "params" := ex_panic_nil ]}.

Definition ex_keeper_flaky : Keeper nat :=
  Build_Keeper "committee" {[ "params" := ex_flaky ]}.

Definition ex_keeper_faulty : Keeper nat :=
  Build_Keeper "committee" {[ "params" := ex_faulty ]}.

(** The store after alice's proposal: proposal 1 of committee 1, open
    until 100. *)
Definition ex_proposal : Proposal :=
  {| pr_PubProposal := Some ex_content; pr_ID := 1; pr_CommitteeID := 1;
     Deadline := 100 |}.

Definition ex_store1 : Store :=
  {| committees := {[ 1%N := ex_committee ]};
     proposals := {[ 1%N := ex_proposal ]}; votes := ∅;
     nextProposalID := 2; others := ∅ |}.

Definition ex_submitEvent : Event :=
  {| ev_Type := "proposal_submit";
     ev_Attributes := [("committee_id", "1"); ("proposal_id", "1")] |}.

Definition ex_ctx1 : Context nat := Build_Context ex_store1 0 [ex_submitEvent] 1%nat.

(** Committee 1 is gone from the store, its proposal is still there. *)
Definition ex_store_orphan : Store :=
  {| committees := ∅; proposals := {[ 1%N := ex_proposal ]}; votes := ∅;
     nextProposalID := 2; others := ∅ |}.

Definition ex_ctx_orphan : Context nat := Build_Context ex_store_orphan 0 [] 0%nat.

(** The contexts after alice's vote on proposal 1, after she votes again,
    and after bob's vote. *)
Definition ex_ctx_voted : Context nat :=
  snd (AddVote ex_keeper_flaky 1 "alice" ex_ctx1).

Definition ex_ctx_revoted : Context nat :=
  snd (AddVote ex_keeper_flaky 1 "alice" ex_ctx_voted).

Definition ex_ctx_two_votes : Context nat :=
  snd (AddVote ex_keeper_flaky 1 "bob" ex_ctx_voted).

(** Three proposals with deadlines before, at and after the block time
    100, alice's vote on the first and bob's on the third. *)
Definition ex_proposal_at (id : N) (deadline : Time) : Proposal :=
  {| pr_PubProposal := Some ex_content; pr_ID := id; pr_CommitteeID := 1;
     Deadline := deadline |}.

Definition ex_store_sweep : Store :=
  {| committees := {[ 1%N := ex_committee ]};
     proposals := {[ 1%N := ex_proposal_at 1 50; 2%N := ex_proposal_at 2 100;
                     3%N := ex_proposal_at 3 150 ]};
     votes := {[ (1%N, "alice") := {| ProposalID := 1; Voter := "alice" |};
                 (3%N, "bob") := {| ProposalID := 3; Voter := "bob" |} ]};
     nextProposalID := 4; others := ∅ |}.

Definition ex_ctx_sweep : Context nat := Build_Context ex_store_sweep 100 [] 0%nat.

(** ** Sample data for the cdp genesis *)

(** The state is the list of the module accounts that exist; the keeper's
    writes are left out. *)
Definition ex_sk : cdp.SupplyKeeper (list string) string :=
  {| cdp.GetModuleAccount := fun name st =>
       cdp.Returns (if bool_decide (name ∈ st) then Some name else None) st |}.

Definition ex_pk : cdp.PricefeedKeeper (list string) :=
  {| cdp.pk_GetParams := cdp.ret [] |}.

Definition ex_cdp_keeper : cdp.Keeper (list string) Z unit :=
  {| cdp.SetParams := fun _ => cdp.ret tt;
     cdp.SetTotalPrincipal := fun _ _ _ => cdp.ret tt;
     cdp.SetCDP := fun _ => cdp.ret tt;
     cdp.IndexCdpByOwner := fun _ => cdp.ret tt;
     cdp.CalculateCollateralToDebtRatio := fun _ _ => cdp.ret 0;
     cdp.IndexCdpByCollateralRatio := fun _ _ _ => cdp.ret tt;
     cdp.IncrementTotalPrincipal := fun _ _ => cdp.ret tt;
     cdp.SetNextCdpID := fun _ => cdp.ret tt;
     cdp.SetDebtDenom := fun _ => cdp.ret tt;
     cdp.SetGovDenom := fun _ => cdp.ret tt;
     cdp.SetDeposit := fun _ => cdp.ret tt |}.

Definition ex_genesis : cdp.GenesisState Z unit :=
  {| cdp.gs_Params := {| cdp.CollateralParams := []; cdp.DebtParams := [] |};
     cdp.CDPs := []; cdp.Deposits := []; cdp.StartingCdpID := 1;
     cdp.DebtDenom := "debt"; cdp.GovDenom := "ukava";
     cdp.Validate := None |}.

(** [InitGenesis] with the module's account names. *)
Definition ex_InitGenesis (gs : cdp.GenesisState Z unit) : cdp.G (list string) unit :=
  cdp.InitGenesis (list string) "cdp" "liquidator" "savings" string Z Z.add unit
    (fun _ => "cdp") ex_cdp_keeper ex_pk ex_sk gs.

(** ** Invariants and conditions used by the further properties *)

(** A handler that leaves the committee module's key spaces as it finds
    them (it may write anywhere else). *)
Definition keeps_committee_store {W} (handler : Handler W) : Prop :=
  forall ctx p,
    committees (ms (snd (handler ctx p))) = committees (ms ctx)
    /\ proposals (ms (snd (handler ctx p))) = proposals (ms ctx)
    /\ votes (ms (snd (handler ctx p))) = votes (ms ctx)
    /\ nextProposalID (ms (snd (handler ctx p))) = nextProposalID (ms ctx).

(** Every stored proposal has an ID below the counter. *)
Definition ids_below_counter (s : Store) : Prop :=
  map_Forall (fun id (_ : Proposal) => (id < nextProposalID s)%N) (proposals s).

(** The invariant of the store under the keeper's operations. *)
Definition store_inv (s : Store) : Prop :=
  proposals_wf s /\ votes_wf s /\ ids_below_counter s.

(** A handler that writes to another module's key space and returns. *)
Definition ex_good : Handler nat :=
  fun ctx _ =>
    (HOk, with_ms (set_others (insert "debt_limit" "1000") (ms ctx)) ctx).

Definition ex_keeper_good : Keeper nat :=
  Build_Keeper "committee" {[ "params" := ex_good ]}.

(** Committee 2 has no members; committee 3 has alice and gives its
    proposals no time. *)
Definition ex_committee_empty : Committee :=
  {| com_ID := 2; Members := []; Permissions := [ex_allowAll];
     VoteThreshold := 5 * 10 ^ 17; ProposalDuration := 100 |}.

Definition ex_committee_zero : Committee :=
  {| com_ID := 3; Members := ["alice"]; Permissions := [ex_allowAll];
     VoteThreshold := 5 * 10 ^ 17; ProposalDuration := 0 |}.

Definition ex_store_more : Store :=
  {| committees := {[ 2%N := ex_committee_empty; 3%N := ex_committee_zero ]};
     proposals := {[ 1%N := {| pr_PubProposal := Some ex_content; pr_ID := 1;
                               pr_CommitteeID := 2; Deadline := 100 |} ]};
     votes := ∅; nextProposalID := 2; others := ∅ |}.

Definition ex_ctx_more : Context nat := Build_Context ex_store_more 0 [] 0%nat.

(** ** Conditions and sample data for the further genesis properties *)

(** A call that returns from every state. *)
Definition returns {St A : Type} (m : cdp.G St A) : Prop :=
  forall st, exists a st', m st = cdp.Returns a st'.

(** A keeper none of whose methods panics. *)
Definition keeper_returns {St Principal Deposit : Type}
    (k : cdp.Keeper St Principal Deposit) : Prop :=
  (forall p, returns (cdp.SetParams _ _ _ k p))
  /\ (forall c d z, returns (cdp.SetTotalPrincipal _ _ _ k c d z))
  /\ (forall c, returns (cdp.SetCDP _ _ _ k c))
  /\ (forall c, returns (cdp.IndexCdpByOwner _ _ _ k c))
  /\ (forall c d, returns (cdp.CalculateCollateralToDebtRatio _ _ _ k c d))
  /\ (forall d i r, returns (cdp.IndexCdpByCollateralRatio _ _ _ k d i r))
  /\ (forall d p, returns (cdp.IncrementTotalPrincipal _ _ _ k d p))
  /\ (forall i, returns (cdp.SetNextCdpID _ _ _ k i))
  /\ (forall d, returns (cdp.SetDebtDenom _ _ _ k d))
  /\ (forall d, returns (cdp.SetGovDenom _ _ _ k d))
  /\ (forall d, returns (cdp.SetDeposit _ _ _ k d)).

(** A pricefeed with the market of bnb only, and a genesis state with the
    collaterals bnb and btc, of which the second has no market. *)
Definition ex_pk_bnb : cdp.PricefeedKeeper (list string) :=
  {| cdp.pk_GetParams := cdp.ret [{| cdp.MarketID := "bnb:usd" |}] |}.

Definition ex_genesis_btc : cdp.GenesisState Z unit :=
  {| cdp.gs_Params :=
       {| cdp.CollateralParams :=
            [{| cdp.cp_Denom := "bnb"; cdp.cp_MarketID := "bnb:usd" |};
             {| cdp.cp_Denom := "btc"; cdp.cp_MarketID := "btc:usd" |}];
          cdp.DebtParams := [{| cdp.dp_Denom := "usdx" |}] |};
     cdp.CDPs := []; cdp.Deposits := []; cdp.StartingCdpID := 1;
     cdp.DebtDenom := "debt"; cdp.GovDenom := "ukava";
     cdp.Validate := None |}.

(** A genesis state with the collateral bnb and two CDPs. *)
Definition ex_cdp (id : N) : cdp.CDP Z :=
  {| cdp.ID := id;
     cdp.Collateral := {| cdp.Denom := "bnb"; cdp.Amount := 10 |};
     cdp.cdp_Principal := 5; cdp.AccumulatedFees := 0 |}.

Definition ex_genesis_cdps (start : N) : cdp.GenesisState Z unit :=
  {| cdp.gs_Params :=
       {| cdp.CollateralParams :=
            [{| cdp.cp_Denom := "bnb"; cdp.cp_MarketID := "bnb:usd" |}];
          cdp.DebtParams := [{| cdp.dp_Denom := "usdx" |}] |};
     cdp.CDPs := [ex_cdp 1; ex_cdp 2]; cdp.Deposits := [tt];
     cdp.StartingCdpID := start;
     cdp.DebtDenom := "debt"; cdp.GovDenom := "ukava";
     cdp.Validate := None |}.

Definition ex_InitGenesis_bnb (gs : cdp.GenesisState Z unit) : cdp.G (list string) unit :=
  cdp.InitGenesis (list string) "cdp" "liquidator" "savings" string Z Z.add unit
    (fun _ => "cdp") ex_cdp_keeper ex_pk_bnb ex_sk gs.

(** A keeper to export from: the state is a list of CDPs, each with its
    deposits (here their amounts). *)
Definition ex_reads : cdp.KeeperReads (list (cdp.CDP Z * list Z)) Z Z Z :=
  {| cdp.GetParams := cdp.ret {| cdp.CollateralParams := []; cdp.DebtParams := [] |};
     cdp.cdpRecords := fun st => cdp.Returns (map fst st) st;
     cdp.depositRecords := fun id st =>
       cdp.Returns
         (flat_map (fun e => if N.eqb (cdp.ID Z (fst e)) id then snd e else []) st) st;
     cdp.GetNextCdpID := cdp.ret 3%N;
     cdp.GetDebtDenom := cdp.ret "debt";
     cdp.GetGovDenom := cdp.ret "ukava";
     cdp.GetPreviousSavingsDistribution := cdp.ret None |}.

(** A supply keeper that has an account for every name. *)
Definition ex_sk_all : cdp.SupplyKeeper (list string) string :=
  {| cdp.GetModuleAccount := fun name st => cdp.Returns (Some name) st |}.

(** * Proofs *)

(** Splits a conjunction of cases and closes those that a premise rules
    out. *)
Ltac settle :=
  repeat split; intros;
  repeat match goal with
         | H : ex _ |- _ => destruct H
         | H : _ /\ _ |- _ => destruct H
         end;
  simpl in *; try congruence; eauto.

(** Every write of the keeper keeps the store well-formed. *)
Lemma applyOp_wf (op : StoreOp) (s : Store) :
  proposals_wf s -> votes_wf s ->
  proposals_wf (applyOp op s) /\ votes_wf (applyOp op s).
Proof.
  unfold proposals_wf, votes_wf. intros Hp Hv.
  destruct op as [pr|id|id|v|id voter]; simpl; split; try done.
  - by apply map_Forall_insert_2.
  - by apply map_Forall_delete.
  - by apply map_Forall_insert_2.
  - by apply map_Forall_delete.
Qed.

Section ValidateProperties.

Variable W : Type.
Implicit Types (k : Keeper W) (ctx : Context W) (p : PubProposal)
  (handler : Handler W).

Lemma with_env_same ctx : with_env (env ctx) ctx = ctx.
Proof. by destruct ctx. Qed.

Lemma GetRoute_HasRoute k path :
  HasRoute (router k) path = true ->
  exists handler : Handler W, router k !! path = Some handler
                  /\ GetRoute (router k) path = Ok handler.
Proof.
  unfold HasRoute, GetRoute. intros Hr.
  apply bool_decide_eq_true_1 in Hr as [h Hh].
  exists h. by rewrite Hh.
Qed.

(** Whatever the outcome, the context after [ValidatePubProposal] is the
    context before it up to the environment. *)
Lemma ValidatePubProposal_frame k p ctx :
  exists w, snd (ValidatePubProposal k p ctx) = with_env w ctx.
Proof.
  unfold ValidatePubProposal.
  destruct p as [c|]; [|exists (env ctx); by rewrite with_env_same].
  destruct (ValidateBasic c); [exists (env ctx); by rewrite with_env_same|].
  destruct (HasRoute (router k) (ProposalRoute c)) eqn:Hr; simpl;
    [|exists (env ctx); by rewrite with_env_same].
  destruct (GetRoute_HasRoute _ _ Hr) as (h & _ & ->).
  destruct (h _ _) as [out cacheCtx'].
  exists (env cacheCtx'). by destruct out as [| |[]].
Qed.

(** [ValidatePubProposal] returns; it never ends in a panic. *)
Lemma ValidatePubProposal_no_panic k p ctx r ctx' :
  ValidatePubProposal k p ctx <> (Panic r, ctx').
Proof.
  unfold ValidatePubProposal.
  destruct p as [c|]; [|done].
  destruct (ValidateBasic c); [done|].
  destruct (HasRoute (router k) (ProposalRoute c)) eqn:Hr; simpl; [|done].
  destruct (GetRoute_HasRoute _ _ Hr) as (h & _ & ->).
  destruct (h _ _) as [out cacheCtx']. by destruct out as [| |[]].
Qed.

(** The run of [ValidatePubProposal] once the checks before the dry run
    have passed. *)
Lemma ValidatePubProposal_dry_run k c handler ctx :
  ValidateBasic c = None ->
  router k !! ProposalRoute c = Some handler ->
  ValidatePubProposal k (Some c) ctx =
    (match fst (handler (fst (CacheContext ctx)) (Some c)) with
     | HOk => Ok tt
     | HErr err => Err err
     | HPanic r => recovered k r (Ok tt)
     end,
     leftBy (snd (handler (fst (CacheContext ctx)) (Some c))) ctx).
Proof.
  intros Hb Hh. unfold ValidatePubProposal, HasRoute, GetRoute.
  rewrite Hb, Hh. rewrite bool_decide_eq_true_2 by eauto. simpl.
  destruct (handler _ _) as [out cacheCtx']. by destruct out.
Qed.

(** X24: a panic of the handler during the dry run with a value that is
    not nil is recovered inside [ValidatePubProposal] and becomes the
    ordinary error [ErrInvalidPubProposal] ("proposal handler panicked:
    ..."); and for no proposal, keeper and context does
    [ValidatePubProposal] end in a panic: a panic with the value nil is
    recovered too. *)
Theorem ValidatePubProposal_recovers_handler_panic
    k c handler ctx (r : string) cacheCtx' :
  ValidateBasic c = None ->
  router k !! ProposalRoute c = Some handler ->
  handler (fst (CacheContext ctx)) (Some c) = (HPanic r, cacheCtx') ->
  ValidatePubProposal k (Some c) ctx =
    (Err (ErrInvalidPubProposal (codespace k) ("proposal handler panicked: " ++ r)),
     leftBy cacheCtx' ctx)
  /\ forall k' p' ctx' r' ctx'',
       ValidatePubProposal k' p' ctx' <> (Panic r', ctx'').
Proof.
  intros Hb Hh Hrun. split.
  - rewrite (ValidatePubProposal_dry_run _ _ _ _ Hb Hh). by rewrite Hrun.
  - intros. apply ValidatePubProposal_no_panic.
Qed.

(** C3: the live store is the same after [ValidatePubProposal] as before
    it, for every keeper (every handler), proposal and context and for
    every outcome; so are the events and the block time.  The dry run
    works on the cache of [CacheContext], which is never written back. *)
Theorem ValidatePubProposal_live_store_unchanged k p ctx :
  ms (snd (ValidatePubProposal k p ctx)) = ms ctx
  /\ events (snd (ValidatePubProposal k p ctx)) = events ctx
  /\ blockTime (snd (ValidatePubProposal k p ctx)) = blockTime ctx.
Proof.
  destruct (ValidatePubProposal_frame k p ctx) as [w ->]. done.
Qed.

End ValidateProperties.

Arguments with_env_same {W} ctx.
Arguments GetRoute_HasRoute {W} k path _.
Arguments ValidatePubProposal_frame {W} k p ctx.
Arguments ValidatePubProposal_no_panic {W} k p ctx r ctx'.
Arguments ValidatePubProposal_dry_run {W} k c handler ctx _ _.

Lemma ValidatePubProposal_recovers_handler_panic_witness :
  ValidatePubProposal ex_keeper_faulty (Some ex_content) ex_ctx =
    (Err (ErrInvalidPubProposal "committee"
            "proposal handler panicked: parameter not registered"), ex_ctx).
Proof.
  refine (proj1 (ValidatePubProposal_recovers_handler_panic nat
            ex_keeper_faulty ex_content ex_faulty ex_ctx
            "parameter not registered"
            (with_ms (set_others (insert "debt_limit" "1000") ex_store) ex_ctx)
            _ _ _)); reflexivity.
Defined.

(** C2, at the input where the code departs from it: a handler that
    writes to the store it is given and then panics with the value nil
    during the dry run.  The deferred function stops the panic, finds
    [recover()] nil and leaves the result as it is, so
    [ValidatePubProposal] returns nil where the claim has an
    [ErrInvalidPubProposal] error, and [SubmitProposal] goes on to store
    the proposal.  The panic does not propagate and the live store is
    untouched. *)
Lemma ValidatePubProposal_panic_nil_returns_nil :
  fst (ex_panic_nil (fst (CacheContext ex_ctx)) (Some ex_content)) = HPanic PanicNil
  /\ ValidatePubProposal ex_keeper_panic_nil (Some ex_content) ex_ctx = (Ok tt, ex_ctx)
  /\ SubmitProposal ex_keeper_panic_nil "alice" 1 (Some ex_content) ex_ctx
     = (Ok 1%N, Build_Context ex_store1 0 [ex_submitEvent] 0%nat).
Proof.
  split; [reflexivity|]. split; [reflexivity|].
  vm_compute. reflexivity.
Qed.

Section EnactProperties.

Variable W : Type.
Variable ErrorString : Error -> string.
Implicit Types (k : Keeper W) (ctx : Context W) (handler : Handler W).

Lemma EnactProposal_unknown k ctx proposalID :
  GetProposal ctx proposalID = None ->
  EnactProposal ErrorString k proposalID ctx =
    (Err (ErrUnknownProposal (codespace k) proposalID), ctx).
Proof. intros Hg. unfold EnactProposal, bind. simpl. by rewrite Hg. Qed.

(** C1, as the code has it: an unknown proposal and a failed
    re-validation are returned to the caller as errors, but when the
    stored content passes the re-validation and the handler, run on the
    live context, returns an error, [EnactProposal] panics with
    "unexpected handler error: ..." in the state the handler left. *)
Theorem EnactProposal_handler_error_panics k ctx proposalID pr :
  GetProposal ctx proposalID = Some pr ->
  (forall e ctx1,
     ValidatePubProposal k (pr_PubProposal pr) ctx = (Err e, ctx1) ->
     EnactProposal ErrorString k proposalID ctx = (Err e, ctx1))
  /\ (forall c handler err ctx1 ctx2,
        pr_PubProposal pr = Some c ->
        ValidatePubProposal k (Some c) ctx = (Ok tt, ctx1) ->
        router k !! ProposalRoute c = Some handler ->
        handler ctx1 (Some c) = (HErr err, ctx2) ->
        EnactProposal ErrorString k proposalID ctx =
          (Panic ("unexpected handler error: " ++ ErrorString err), ctx2)).
Proof.
  intros Hg. split.
  - intros e ctx1 Hv. unfold EnactProposal, bind. simpl. rewrite Hg.
    by rewrite Hv.
  - intros c handler err ctx1 ctx2 Hc Hv Hh Hrun.
    unfold EnactProposal, bind. simpl. rewrite Hg, Hc, Hv.
    unfold pr_ProposalRoute, GetRoute, callHandler. rewrite Hc, Hh. simpl.
    by rewrite Hrun.
Qed.

End EnactProperties.

Arguments EnactProposal_unknown {W} ErrorString k ctx proposalID _.

Lemma EnactProposal_handler_error_panics_witness :
  EnactProposal ex_ErrorString ex_keeper_flaky 1 ex_ctx1 =
    (Panic "unexpected handler error: parameter is not recognized",
     with_env 3%nat ex_ctx1).
Proof.
  refine (proj2 (EnactProposal_handler_error_panics nat ex_ErrorString
            ex_keeper_flaky ex_ctx1 1%N ex_proposal _)
            ex_content ex_flaky
            (ErrExternal "params" 1 "parameter is not recognized")
            (with_env 2%nat ex_ctx1) (with_env 3%nat ex_ctx1) _ _ _ _);
    reflexivity.
Defined.

(** C1 fails as the specification words it: alice's proposal passed
    [ValidatePubProposal] when it was submitted and passes it again at
    enactment; the handler then returns an error on the live context, and
    [EnactProposal] does not return it. *)
Lemma EnactProposal_handler_error_counterexample :
  SubmitProposal ex_keeper_flaky "alice" 1 (Some ex_content) ex_ctx
    = (Ok 1%N, ex_ctx1)
  /\ ~ EnactProposal_surfaces_handler_error ex_ErrorString ex_keeper_flaky ex_ctx1 1.
Proof.
  split; [vm_compute; reflexivity|].
  intros Hclaim.
  destruct (Hclaim ex_proposal ex_content ex_flaky
              (ErrExternal "params" 1 "parameter is not recognized")
              (with_env 2%nat ex_ctx1) (with_env 3%nat ex_ctx1)
              eq_refl eq_refl eq_refl eq_refl eq_refl) as [ctx' Hrun].
  vm_compute in Hrun. discriminate Hrun.
Qed.

Section SubmitProperties.

Variable W : Type.
Implicit Types (k : Keeper W) (ctx : Context W) (p : PubProposal).

(** What a successful submission does: the proposal is stored under the
    next ID with the deadline [blockTime + ProposalDuration], the counter
    advances, and the submission event is emitted. *)
Lemma SubmitProposal_success k proposer committeeID p ctx com ctx1 :
  GetCommittee ctx committeeID = Some com ->
  HasMember com proposer = true ->
  HasPermissionsFor com p = true ->
  ValidatePubProposal k p ctx = (Ok tt, ctx1) ->
  SubmitProposal k proposer committeeID p ctx =
    (Ok (nextProposalID (ms ctx)),
     Build_Context
       (applyOp (OpSetNextProposalID (wrap64 (nextProposalID (ms ctx) + 1)))
          (applyOp (OpSetProposal
                      {| pr_PubProposal := p; pr_ID := nextProposalID (ms ctx);
                         pr_CommitteeID := committeeID;
                         Deadline := blockTime ctx + ProposalDuration com |})
             (ms ctx)))
       (blockTime ctx)
       (events ctx ++
          [{| ev_Type := EventTypeProposalSubmit;
              ev_Attributes :=
                [(AttributeKeyCommitteeID, Sprintf_d (com_ID com));
                 (AttributeKeyProposalID, Sprintf_d (nextProposalID (ms ctx)))] |}])
       (env ctx1)).
Proof.
  intros Hc Hm Hp Hv.
  pose proof (ValidatePubProposal_frame k p ctx) as [w Hw].
  rewrite Hv in Hw. simpl in Hw. subst ctx1.
  unfold SubmitProposal, bind at 1. simpl. rewrite Hc, Hm, Hp. simpl.
  unfold bind at 1. rewrite Hv.
  reflexivity.
Qed.

(** C4: [SubmitProposal] succeeds exactly when the committee exists, the
    proposer is one of its members, the committee has permissions for the
    content and the content passes [ValidatePubProposal]; the four checks
    are made in this order and the first to fail gives the error; and a
    submission that fails leaves the store (no proposal stored, the ID
    counter as it was) and the events unchanged. *)
Theorem SubmitProposal_succeeds_iff k proposer committeeID p ctx :
  ((exists id, fst (SubmitProposal k proposer committeeID p ctx) = Ok id) <->
   (exists com, GetCommittee ctx committeeID = Some com
                /\ HasMember com proposer = true
                /\ HasPermissionsFor com p = true
                /\ fst (ValidatePubProposal k p ctx) = Ok tt))
  /\ (GetCommittee ctx committeeID = None ->
      SubmitProposal k proposer committeeID p ctx =
        (Err (ErrUnknownCommittee (codespace k) committeeID), ctx))
  /\ (forall com,
        GetCommittee ctx committeeID = Some com ->
        HasMember com proposer = false ->
        SubmitProposal k proposer committeeID p ctx =
          (Err (ErrUnauthorized "proposer not member of committee"), ctx))
  /\ (forall com,
        GetCommittee ctx committeeID = Some com ->
        HasMember com proposer = true ->
        HasPermissionsFor com p = false ->
        SubmitProposal k proposer committeeID p ctx =
          (Err (ErrUnauthorized
                  "committee does not have permissions to enact proposal"), ctx))
  /\ (forall com err,
        GetCommittee ctx committeeID = Some com ->
        HasMember com proposer = true ->
        HasPermissionsFor com p = true ->
        fst (ValidatePubProposal k p ctx) = Err err ->
        fst (SubmitProposal k proposer committeeID p ctx) = Err err)
  /\ ((forall id, fst (SubmitProposal k proposer committeeID p ctx) <> Ok id) ->
      ms (snd (SubmitProposal k proposer committeeID p ctx)) = ms ctx
      /\ events (snd (SubmitProposal k proposer committeeID p ctx)) = events ctx).
Proof.
  destruct (GetCommittee ctx committeeID) as [com|] eqn:Hc.
  2:{ assert (Hrun : SubmitProposal k proposer committeeID p ctx =
                (Err (ErrUnknownCommittee (codespace k) committeeID), ctx)).
      { unfold SubmitProposal, bind. simpl. by rewrite Hc. }
      rewrite Hrun. simpl. settle. }
  destruct (HasMember com proposer) eqn:Hm.
  2:{ assert (Hrun : SubmitProposal k proposer committeeID p ctx =
                (Err (ErrUnauthorized "proposer not member of committee"), ctx)).
      { unfold SubmitProposal, bind. simpl. by rewrite Hc, Hm. }
      rewrite Hrun. simpl. settle. }
  destruct (HasPermissionsFor com p) eqn:Hp.
  2:{ assert (Hrun : SubmitProposal k proposer committeeID p ctx =
                (Err (ErrUnauthorized
                  "committee does not have permissions to enact proposal"), ctx)).
      { unfold SubmitProposal, bind. simpl. by rewrite Hc, Hm, Hp. }
      rewrite Hrun. simpl. settle. }
  destruct (ValidatePubProposal k p ctx) as [[[]|err|r] ctx1] eqn:Hv.
  - rewrite (SubmitProposal_success _ _ _ _ _ _ _ Hc Hm Hp Hv). simpl.
    repeat split; try (by settle).
    all: match goal with
         | Hno : forall id, _ <> Ok id |- _ =>
             by destruct (Hno (nextProposalID (ms ctx)))
         end.
  - assert (Hrun : SubmitProposal k proposer committeeID p ctx = (Err err, ctx1)).
    { unfold SubmitProposal, bind at 1. simpl. rewrite Hc, Hm, Hp. simpl.
      unfold bind at 1. by rewrite Hv. }
    pose proof (ValidatePubProposal_frame k p ctx) as [w Hw].
    rewrite Hv in Hw. simpl in Hw. subst ctx1.
    rewrite Hrun. simpl. settle.
  - by destruct (ValidatePubProposal_no_panic k p ctx r ctx1).
Qed.

End SubmitProperties.

Arguments SubmitProposal_success {W} k proposer committeeID p ctx com ctx1 _ _ _ _.

Lemma SubmitProposal_succeeds_iff_witness :
  (exists id, fst (SubmitProposal ex_keeper_flaky "alice" 1 (Some ex_content) ex_ctx)
              = Ok id)
  /\ SubmitProposal ex_keeper_flaky "dave" 1 (Some ex_content) ex_ctx
     = (Err (ErrUnauthorized "proposer not member of committee"), ex_ctx).
Proof.
  split.
  - apply (proj1 (SubmitProposal_succeeds_iff nat ex_keeper_flaky "alice" 1%N
                    (Some ex_content) ex_ctx)).
    exists ex_committee. repeat split; reflexivity.
  - apply (proj1 (proj2 (proj2 (SubmitProposal_succeeds_iff nat ex_keeper_flaky
                    "dave" 1%N (Some ex_content) ex_ctx))) ex_committee);
      reflexivity.
Defined.

Section VoteProperties.

Variable W : Type.
Implicit Types (k : Keeper W) (ctx : Context W).

Lemma iterate_collect {A} (l acc : list A) :
  iterate (fun x acc => ((acc ++ [x])%list, false)) l acc = (acc ++ l)%list.
Proof.
  revert acc. induction l as [|x l IH]; intros acc; simpl.
  - by rewrite app_nil_r.
  - rewrite IH. by rewrite <- app_assoc.
Qed.

(** [TallyVotes] is the number of entries under the proposal's ID. *)
Lemma TallyVotes_entries ctx proposalID :
  TallyVotes ctx proposalID
  = Z.of_nat (length (voteEntries (ms ctx) proposalID)).
Proof.
  unfold TallyVotes, IterateVotes, voteRecords.
  rewrite iterate_collect. simpl. by rewrite length_fmap.
Qed.

(** The run of [AddVote] when its four checks pass. *)
Lemma AddVote_success k ctx proposalID voter pr com :
  GetProposal ctx proposalID = Some pr ->
  HasExpiredBy pr (blockTime ctx) = false ->
  GetCommittee ctx (pr_CommitteeID pr) = Some com ->
  HasMember com voter = true ->
  AddVote k proposalID voter ctx =
    (Ok tt,
     Build_Context
       (applyOp (OpSetVote {| ProposalID := proposalID; Voter := voter |}) (ms ctx))
       (blockTime ctx)
       (events ctx ++
          [{| ev_Type := EventTypeProposalVote;
              ev_Attributes :=
                [(AttributeKeyCommitteeID, Sprintf_d (com_ID com));
                 (AttributeKeyProposalID, Sprintf_d (pr_ID pr))] |}])
       (env ctx)).
Proof.
  intros Hg He Hc Hm. unfold AddVote, bind. simpl.
  by rewrite Hg, He, Hc, Hm.
Qed.

(** A vote that is accepted is stored under its (ProposalID, Voter) key;
    nothing else in the store changes. *)
Lemma AddVote_Ok_inv k ctx proposalID voter ctx' :
  AddVote k proposalID voter ctx = (Ok tt, ctx') ->
  ms ctx' = set_votes (insert (proposalID, voter)
                         {| ProposalID := proposalID; Voter := voter |}) (ms ctx).
Proof.
  unfold AddVote, bind. simpl.
  destruct (GetProposal ctx proposalID) as [pr|]; [|done].
  destruct (HasExpiredBy pr (blockTime ctx)); [done|].
  destruct (GetCommittee ctx (pr_CommitteeID pr)) as [com|]; [|done].
  destruct (HasMember com voter); simpl; [|done].
  intros [= <-]. done.
Qed.

(** C10: a vote on a proposal that exists and has not expired, but whose
    committee is no longer in the store, is refused with
    [ErrUnknownCommittee] and nothing is recorded.  The committee is
    looked up after the proposal and its deadline (an unknown proposal and
    an expired one are refused before, whatever the committee) and before
    the membership of the voter, which is not looked at. *)
Theorem AddVote_unknown_committee k ctx proposalID voter :
  (GetProposal ctx proposalID = None ->
   AddVote k proposalID voter ctx =
     (Err (ErrUnknownProposal (codespace k) proposalID), ctx))
  /\ (forall pr,
        GetProposal ctx proposalID = Some pr ->
        HasExpiredBy pr (blockTime ctx) = true ->
        AddVote k proposalID voter ctx =
          (Err (ErrProposalExpired (codespace k) (blockTime ctx) (Deadline pr)), ctx))
  /\ (forall pr,
        GetProposal ctx proposalID = Some pr ->
        HasExpiredBy pr (blockTime ctx) = false ->
        GetCommittee ctx (pr_CommitteeID pr) = None ->
        AddVote k proposalID voter ctx =
          (Err (ErrUnknownCommittee (codespace k) (pr_CommitteeID pr)), ctx))
  /\ (forall pr com,
        GetProposal ctx proposalID = Some pr ->
        HasExpiredBy pr (blockTime ctx) = false ->
        GetCommittee ctx (pr_CommitteeID pr) = Some com ->
        HasMember com voter = false ->
        AddVote k proposalID voter ctx =
          (Err (ErrUnauthorized "voter must be a member of committee"), ctx)).
Proof.
  unfold AddVote, bind. simpl. repeat split.
  - intros ->. done.
  - intros pr -> ->. done.
  - intros pr -> -> ->. done.
  - intros pr com -> -> -> ->. done.
Qed.

Lemma filter_none {A} (P : A -> Prop) `{forall x, Decision (P x)} (l : list A) :
  (forall x, x ∈ l -> ~ P x) -> filter P l = [].
Proof.
  induction l as [|x l IH]; intros Hl; [done|].
  rewrite filter_cons_False by (apply Hl; left).
  apply IH. intros y Hy. apply Hl. by right.
Qed.

(** One entry of a list without two entries of the same key. *)
Lemma one_entry_per_key {K V} `{EqDecision K} (l : list (K * V)) key x :
  NoDup l.*1 -> (key, x) ∈ l ->
  filter (fun e => fst e = key) l = [(key, x)].
Proof.
  induction l as [|[k' y] l IH]; simpl; intros Hnd Hin.
  - by apply elem_of_nil in Hin.
  - apply NoDup_cons in Hnd as [Hk' Hnd].
    apply elem_of_cons in Hin as [Heq|Hin].
    + injection Heq as <- <-.
      rewrite filter_cons_True by done. f_equal.
      apply filter_none. intros [k2 z] Hz Hk2.
      simpl in Hk2. subst k2. apply Hk'.
      apply list_elem_of_fmap. by exists (key, z).
    + rewrite filter_cons_False; [by apply IH|].
      simpl. intros ->. apply Hk'.
      apply list_elem_of_fmap. by exists (key, x).
Qed.

(** The entries under one (ProposalID, Voter) pair among those an
    iterator over the proposal's votes finds. *)
Lemma voteEntries_pair (s : Store) proposalID voter v :
  votes s !! (proposalID, voter) = Some v ->
  filter (fun e => fst e = (proposalID, voter)) (voteEntries s proposalID)
  = [((proposalID, voter), v)].
Proof.
  intros Hv. unfold voteEntries. apply one_entry_per_key.
  - apply NoDup_fst_map_to_list.
  - apply elem_of_map_to_list. by apply map_lookup_filter_Some.
Qed.

(** C6: when [AddVote] is called twice for the same proposal and voter
    and both calls succeed, the store has one vote record under the pair,
    the second call having replaced the record of the first by an equal
    one: the votes are the same after the second call as after the first,
    an iterator over the proposal's votes finds exactly one entry for the
    pair, and [TallyVotes] (the number of entries it finds) is the same
    after the second call as after the first.  A store holds at most one
    record under a key at any time. *)
Theorem AddVote_twice_one_record k ctx0 ctx1 ctx2 proposalID voter :
  AddVote k proposalID voter ctx0 = (Ok tt, ctx1) ->
  AddVote k proposalID voter ctx1 = (Ok tt, ctx2) ->
  ms ctx2 = ms ctx1
  /\ votes (ms ctx2) !! (proposalID, voter)
     = Some {| ProposalID := proposalID; Voter := voter |}
  /\ filter (fun e => fst e = (proposalID, voter))
            (voteEntries (ms ctx2) proposalID)
     = [((proposalID, voter), {| ProposalID := proposalID; Voter := voter |})]
  /\ TallyVotes ctx2 proposalID
     = Z.of_nat (length (voteEntries (ms ctx2) proposalID))
  /\ TallyVotes ctx2 proposalID = TallyVotes ctx1 proposalID.
Proof.
  intros H1 H2.
  apply AddVote_Ok_inv in H1. apply AddVote_Ok_inv in H2.
  assert (Hsame : ms ctx2 = ms ctx1).
  { rewrite H2, H1. unfold set_votes. simpl. f_equal.
    apply insert_insert_eq. }
  assert (Hl : votes (ms ctx2) !! (proposalID, voter)
               = Some {| ProposalID := proposalID; Voter := voter |}).
  { rewrite H2. simpl. apply lookup_insert_eq. }
  repeat split; try done.
  - by apply voteEntries_pair.
  - apply TallyVotes_entries.
  - rewrite !TallyVotes_entries. by rewrite Hsame.
Qed.

End VoteProperties.

Arguments TallyVotes_entries {W} ctx proposalID.
Arguments AddVote_success {W} k ctx proposalID voter pr com _ _ _ _.
Arguments AddVote_Ok_inv {W} k ctx proposalID voter ctx' _.

Lemma AddVote_unknown_committee_witness :
  AddVote ex_keeper_flaky 1 "alice" ex_ctx_orphan =
    (Err (ErrUnknownCommittee "committee" 1), ex_ctx_orphan).
Proof.
  apply (proj1 (proj2 (proj2 (AddVote_unknown_committee nat ex_keeper_flaky
                  ex_ctx_orphan 1%N "alice"))) ex_proposal); reflexivity.
Defined.

Lemma AddVote_twice_one_record_witness :
  ms ex_ctx_revoted = ms ex_ctx_voted
  /\ TallyVotes ex_ctx_revoted 1 = 1.
Proof.
  destruct (AddVote_twice_one_record nat ex_keeper_flaky
              ex_ctx1 ex_ctx_voted ex_ctx_revoted 1%N "alice"
              eq_refl eq_refl) as (Hms & _ & _ & Htally & _).
  split; [exact Hms|]. rewrite Htally. reflexivity.
Defined.

Section ResultProperties.

Variable W : Type.
Implicit Types (k : Keeper W) (ctx : Context W).

Import QArith_base Qround.
Local Open Scope Z_scope.

Lemma BitLen_small x : 0 <= x < 2 ^ 315 -> BitLen x <= 315.
Proof.
  intros [H0 H1]. unfold BitLen.
  destruct (Z.eqb_spec x 0) as [->|Hx]; [lia|].
  rewrite Z.abs_eq by lia.
  assert (Z.log2 x < 315) by (apply Z.log2_lt_pow2; lia). lia.
Qed.

(** The comparison of [GetProposalResult] is the comparison of the
    rational numbers the two [Dec]s stand for. *)
Lemma GTE_NewDec_Qle (thr n tally : Z) :
  GTE (NewDec tally) (thr * n)
  = Qle_bool (Qmult (Dec_toQ thr) (inject_Z n)) (inject_Z tally).
Proof.
  unfold GTE, NewDec, Qle_bool, Dec_toQ. simpl.
  rewrite Z.geb_leb. f_equal. lia.
Qed.

(** C5: for a proposal in the store whose committee is in the store, with
    a threshold T in (0,1] and N members, [GetProposalResult] returns
    whether the tally is at least T × N, compared as rational numbers
    (the fixed-point product is exact); so a tally of exactly ceil(T × N)
    passes and a tally of one less fails. *)
Theorem GetProposalResult_quorum k ctx proposalID pr com :
  GetProposal ctx proposalID = Some pr ->
  GetCommittee ctx (pr_CommitteeID pr) = Some com ->
  0 < VoteThreshold com <= precisionReuse ->
  Z.of_nat (length (Members com)) < 2 ^ 63 ->
  GetProposalResult k proposalID ctx =
    (Ok (Qle_bool (quorumQ com) (inject_Z (TallyVotes ctx proposalID))), ctx)
  /\ (TallyVotes ctx proposalID = Qceiling (quorumQ com) ->
      GetProposalResult k proposalID ctx = (Ok true, ctx))
  /\ (TallyVotes ctx proposalID = Qceiling (quorumQ com) - 1 ->
      GetProposalResult k proposalID ctx = (Ok false, ctx)).
Proof.
  intros Hg Hc [Ht0 Ht1] Hn.
  assert (Hrun : GetProposalResult k proposalID ctx =
    (Ok (Qle_bool (quorumQ com) (inject_Z (TallyVotes ctx proposalID))), ctx)).
  { unfold GetProposalResult, bind. simpl. rewrite Hg, Hc. simpl.
    unfold MulInt64.
    assert (Hb : BitLen (VoteThreshold com * Z.of_nat (length (Members com))) <= 315).
    { apply BitLen_small. unfold precisionReuse, Precision in Ht1.
      split; [nia|].
      apply Z.le_lt_trans with (10 ^ 18 * 2 ^ 63); [nia|]. reflexivity. }
    destruct (Z.ltb_spec (255 + DecimalPrecisionBits)
                (BitLen (VoteThreshold com * Z.of_nat (length (Members com)))))
      as [Hlt|_].
    { unfold DecimalPrecisionBits in Hlt. lia. }
    simpl. by rewrite GTE_NewDec_Qle. }
  rewrite Hrun. split; [done|]. split; intros Htally; do 2 f_equal.
  - apply Qle_bool_iff. rewrite Htally. apply Qle_ceiling.
  - apply not_true_is_false. intros Hle. apply Qle_bool_iff in Hle.
    rewrite Htally in Hle.
    apply (Qlt_irrefl (quorumQ com)).
    eapply Qle_lt_trans; [exact Hle|]. apply Qceiling_lt.
Qed.

End ResultProperties.

Lemma GetProposalResult_quorum_witness :
  TallyVotes ex_ctx_two_votes 1 = 2
  /\ Qround.Qceiling (quorumQ ex_committee) = 2
  /\ GetProposalResult ex_keeper_flaky 1 ex_ctx_two_votes = (Ok true, ex_ctx_two_votes)
  /\ TallyVotes ex_ctx_voted 1 = 1
  /\ GetProposalResult ex_keeper_flaky 1 ex_ctx_voted = (Ok false, ex_ctx_voted).
Proof.
  assert (Hthr : 0 < VoteThreshold ex_committee <= precisionReuse)
    by (vm_compute; split; [reflexivity | discriminate]).
  assert (Hlen : Z.of_nat (length (Members ex_committee)) < 2 ^ 63)
    by reflexivity.
  split; [reflexivity|]. split; [reflexivity|]. split; [|split; [reflexivity|]].
  - apply (proj1 (proj2 (GetProposalResult_quorum nat ex_keeper_flaky
             ex_ctx_two_votes 1%N ex_proposal ex_committee
             eq_refl eq_refl Hthr Hlen))).
    reflexivity.
  - apply (proj2 (proj2 (GetProposalResult_quorum nat ex_keeper_flaky
             ex_ctx_voted 1%N ex_proposal ex_committee
             eq_refl eq_refl Hthr Hlen))).
    reflexivity.
Defined.

Section DeleteProperties.

Variable W : Type.
Implicit Types (k : Keeper W) (ctx : Context W) (s : Store).

Lemma writes_run ops ctx :
  writes ops ctx
  = (Ok tt, with_ms (fold_left (fun s op => applyOp op s) ops (ms ctx)) ctx).
Proof.
  revert ctx. induction ops as [|op ops IH]; intros ctx; simpl.
  - by destruct ctx.
  - unfold bind, write. rewrite IH. by destruct ctx.
Qed.

(** The store after the deletion of the votes [vs], one by one. *)
Lemma delete_votes_run (vs : list Vote) s :
  let s' := fold_left (fun s op => applyOp op s)
              (map (fun v => OpDeleteVote (ProposalID v) (Voter v)) vs) s in
  committees s' = committees s
  /\ proposals s' = proposals s
  /\ nextProposalID s' = nextProposalID s
  /\ others s' = others s
  /\ forall key,
       votes s' !! key =
         if decide (key ∈ map (fun v => (ProposalID v, Voter v)) vs)
         then None else votes s !! key.
Proof.
  revert s. induction vs as [|v vs IH]; intros s; simpl.
  - repeat split.
    all: intros key; rewrite decide_False; [done|apply not_elem_of_nil].
  - destruct (IH (set_votes (delete (ProposalID v, Voter v)) s))
      as (Hc & Hp & Hn & Ho & Hv).
    repeat split; try done.
    intros key. rewrite Hv. simpl.
    destruct (decide (key = (ProposalID v, Voter v))) as [->|Hne].
    + rewrite lookup_delete_eq.
      rewrite (decide_True (P := _ ∈ _ :: _)) by left.
      by destruct (decide _).
    + rewrite lookup_delete_ne by done.
      destruct (decide (key ∈ map (fun v => (ProposalID v, Voter v)) vs)) as [Hin|Hnin].
      * rewrite decide_True; [done|]. by right.
      * rewrite decide_False; [done|].
        intros [?|?]%elem_of_cons; done.
Qed.

(** In a well-formed store the keys of the votes collected for a proposal
    are the keys that start with its ID. *)
Lemma voteRecords_keys s proposalID key :
  votes_wf s ->
  key ∈ map (fun v => (ProposalID v, Voter v)) (voteRecords s proposalID)
  <-> fst key = proposalID /\ is_Some (votes s !! key).
Proof.
  intros Hwf. unfold voteRecords, voteEntries.
  rewrite list_elem_of_fmap. split.
  - intros (v & -> & Hv). apply list_elem_of_fmap in Hv as ([key' v'] & -> & Hin).
    apply elem_of_map_to_list in Hin. apply map_lookup_filter_Some in Hin as [Hl Hk].
    pose proof (Hwf _ _ Hl) as <-. simpl in *. split; [done|]. eauto.
  - intros [Hk [v Hl]]. exists v. split; [by rewrite (Hwf _ _ Hl)|].
    apply list_elem_of_fmap. exists (key, v). split; [done|].
    apply elem_of_map_to_list. by apply map_lookup_filter_Some.
Qed.

(** The run of [DeleteProposalAndVotes] on a well-formed store. *)
Lemma DeleteProposalAndVotes_run ctx proposalID :
  votes_wf (ms ctx) ->
  DeleteProposalAndVotes proposalID ctx
  = (Ok tt, with_ms (purge proposalID (ms ctx)) ctx).
Proof.
  intros Hwf. unfold DeleteProposalAndVotes, bind. cbn [getCtx].
  rewrite writes_run. f_equal. f_equal.
  unfold DeleteProposalAndVotes_ops, IterateVotes.
  rewrite iterate_collect. simpl.
  destruct (delete_votes_run (voteRecords (ms ctx) proposalID)
              (set_proposals (delete proposalID) (ms ctx)))
    as (Hc & Hp & Hn & Ho & Hv).
  set (s' := fold_left _ _ _) in *.
  assert (Hvotes : votes s' = filter (fun kv => fst (fst kv) <> proposalID)
                                (votes (ms ctx))).
  { apply map_eq. intros key. rewrite Hv. simpl.
    destruct (decide _) as [Hin|Hnin].
    - apply voteRecords_keys in Hin as [Hk _]; [|done].
      symmetry. apply map_lookup_filter_None. right. intros v _. simpl. by intros ?.
    - destruct (votes (ms ctx) !! key) as [v|] eqn:Hl.
      + symmetry. apply map_lookup_filter_Some. split; [done|]. simpl.
        intros Hk. apply Hnin. apply voteRecords_keys; [done|]. eauto.
      + symmetry. apply map_lookup_filter_None. by left. }
  destruct s'. simpl in *. unfold purge, set_votes, set_proposals. simpl.
  by subst.
Qed.

(** C8, as the code has it: [DeleteProposalAndVotes] collects the votes
    of the proposal, deletes the proposal and then deletes the collected
    votes, one by one; on a well-formed store it returns, and afterwards
    the store has no proposal under the ID and no vote under a key that
    starts with it, and is otherwise as before. *)
Theorem DeleteProposalAndVotes_removes ctx proposalID :
  votes_wf (ms ctx) ->
  DeleteProposalAndVotes_ops ctx proposalID
  = OpDeleteProposal proposalID
      :: map (fun v => OpDeleteVote (ProposalID v) (Voter v))
             (voteRecords (ms ctx) proposalID)
  /\ DeleteProposalAndVotes proposalID ctx
     = (Ok tt, with_ms (purge proposalID (ms ctx)) ctx)
  /\ GetProposal (snd (DeleteProposalAndVotes proposalID ctx)) proposalID = None
  /\ voteRecords (ms (snd (DeleteProposalAndVotes proposalID ctx))) proposalID = []
  /\ (forall voter,
        votes (ms (snd (DeleteProposalAndVotes proposalID ctx)))
          !! (proposalID, voter) = None).
Proof.
  intros Hwf. split.
  { unfold DeleteProposalAndVotes_ops, IterateVotes.
    by rewrite iterate_collect. }
  rewrite (DeleteProposalAndVotes_run _ _ Hwf). split; [done|]. simpl.
  assert (Hnone : forall voter,
            filter (fun kv : N * Address * Vote => fst (fst kv) <> proposalID)
              (votes (ms ctx)) !! (proposalID, voter) = None).
  { intros voter. apply map_lookup_filter_None. right. intros v _. simpl.
    by intros ?. }
  repeat split.
  - unfold GetProposal. simpl. apply lookup_delete_eq.
  - unfold voteRecords, voteEntries. simpl.
    match goal with
    | |- (map_to_list ?m).*2 = [] =>
        assert (Hempty : m = ∅); [|by rewrite Hempty, map_to_list_empty]
    end.
    apply map_empty. intros key. apply map_lookup_filter_None. right.
    intros v Hv Hk. apply map_lookup_filter_Some in Hv as [_ Hne]. done.
  - exact Hnone.
Qed.

End DeleteProperties.

Arguments writes_run {W} ops ctx.
Arguments DeleteProposalAndVotes_run {W} ctx proposalID _.

(** C8 fails as the specification words it: with alice's vote on proposal
    1 in the store, the proposal is deleted first and the vote after it. *)
Lemma DeleteProposalAndVotes_order_counterexample :
  DeleteProposalAndVotes_ops ex_ctx_voted 1
    = [OpDeleteProposal 1; OpDeleteVote 1 "alice"]
  /\ ~ deletes_votes_then_proposal ex_ctx_voted 1.
Proof.
  split; [vm_compute; reflexivity|].
  unfold deletes_votes_then_proposal. intros Hclaim.
  vm_compute in Hclaim. discriminate Hclaim.
Qed.

Lemma DeleteProposalAndVotes_removes_witness :
  votes_wf (ms ex_ctx_voted)
  /\ TallyVotes ex_ctx_voted 1 = 1
  /\ DeleteProposalAndVotes 1 ex_ctx_voted
     = (Ok tt, with_ms (purge 1 (ms ex_ctx_voted)) ex_ctx_voted)
  /\ GetProposal (snd (DeleteProposalAndVotes 1 ex_ctx_voted)) 1 = None.
Proof.
  assert (Hwf : votes_wf (ms ex_ctx_voted)).
  { apply (bool_decide_unpack _). vm_compute. exact I. }
  split; [exact Hwf|]. split; [reflexivity|].
  destruct (DeleteProposalAndVotes_removes nat ex_ctx_voted 1%N Hwf)
    as (_ & Hrun & Hgone & _).
  split; [exact Hrun | exact Hgone].
Defined.

Section CloseProperties.

Variable W : Type.
Implicit Types (k : Keeper W) (ctx : Context W) (s : Store).

Lemma purge_proposals s id i :
  proposals (purge id s) !! i = if decide (i = id) then None else proposals s !! i.
Proof.
  unfold purge. simpl. destruct (decide (i = id)) as [->|Hne].
  - apply lookup_delete_eq.
  - by apply lookup_delete_ne.
Qed.

Lemma purge_votes s id key :
  votes (purge id s) !! key
  = if decide (fst key = id) then None else votes s !! key.
Proof.
  unfold purge. simpl. destruct (decide (fst key = id)) as [Hk|Hne].
  - apply map_lookup_filter_None. right. intros v _. simpl. tauto.
  - destruct (votes s !! key) as [v|] eqn:Hl.
    + by apply map_lookup_filter_Some.
    + apply map_lookup_filter_None. by left.
Qed.

Lemma votes_wf_purge s id : votes_wf s -> votes_wf (purge id s).
Proof.
  intros Hwf key v Hl. rewrite purge_votes in Hl.
  destruct (decide _); [done|]. by apply Hwf.
Qed.

Lemma votes_wf_sweep now l s : votes_wf s -> votes_wf (sweep now l s).
Proof.
  revert s. induction l as [|pr l IH]; intros s Hwf; simpl; [done|].
  apply IH. destruct (HasExpiredBy pr now); [by apply votes_wf_purge|done].
Qed.

(** The store after a sweep over [l], by lookups. *)
Lemma sweep_lookup now l s :
  let ids := map pr_ID (filter (fun pr => HasExpiredBy pr now = true) l) in
  committees (sweep now l s) = committees s
  /\ nextProposalID (sweep now l s) = nextProposalID s
  /\ others (sweep now l s) = others s
  /\ (forall i, proposals (sweep now l s) !! i
                = if decide (i ∈ ids) then None else proposals s !! i)
  /\ (forall key, votes (sweep now l s) !! key
                  = if decide (fst key ∈ ids) then None else votes s !! key).
Proof.
  revert s. induction l as [|pr l IH]; intros s; simpl.
  - repeat split.
    all: intros; rewrite decide_False; [done|apply not_elem_of_nil].
  - destruct (HasExpiredBy pr now) eqn:He.
    + rewrite filter_cons_True by done. simpl.
      destruct (IH (purge (pr_ID pr) s)) as (Hc & Hn & Ho & Hp & Hv).
      repeat split; try done.
      * intros i. rewrite Hp, purge_proposals.
        destruct (decide (i = pr_ID pr)) as [->|Hne].
        -- rewrite (decide_True (P := _ ∈ _ :: _)) by left. by destruct (decide _).
        -- destruct (decide (i ∈ _)) as [Hin|Hnin].
           ++ rewrite decide_True; [done|by right].
           ++ rewrite decide_False; [done|]. intros [?|?]%elem_of_cons; done.
      * intros key. rewrite Hv, purge_votes.
        destruct (decide (fst key = pr_ID pr)) as [->|Hne].
        -- rewrite (decide_True (P := _ ∈ _ :: _)) by left. by destruct (decide _).
        -- destruct (decide (fst key ∈ _)) as [Hin|Hnin].
           ++ rewrite decide_True; [done|by right].
           ++ rewrite decide_False; [done|]. intros [?|?]%elem_of_cons; done.
    + rewrite filter_cons_False by (rewrite He; done). apply IH.
Qed.

(** The run of the callback of [CloseExpiredProposals] over the proposals
    [l]: it visits them in order, never asks to stop, and emits one event
    for each proposal it removes. *)
Lemma CloseExpired_iterate now l ctx :
  votes_wf (ms ctx) ->
  iterateM (fun proposal =>
      if HasExpiredBy proposal now
      then bind (DeleteProposalAndVotes (pr_ID proposal)) (fun _ =>
           bind (EmitEvent (closeEvent proposal)) (fun _ => ret false))
      else ret false) l ctx
  = (Ok tt,
     Build_Context (sweep now l (ms ctx)) (blockTime ctx)
       (events ctx ++ map closeEvent
                        (filter (fun pr => HasExpiredBy pr now = true) l))
       (env ctx)).
Proof.
  revert ctx. induction l as [|pr l IH]; intros ctx Hwf.
  - simpl. rewrite app_nil_r. by destruct ctx.
  - cbn [iterateM]. unfold bind at 1.
    destruct (HasExpiredBy pr now) eqn:He.
    + unfold bind at 1. rewrite (DeleteProposalAndVotes_run _ _ Hwf).
      unfold bind at 1, EmitEvent. cbn [ret].
      rewrite IH by (by apply votes_wf_purge).
      rewrite filter_cons_True by done. simpl. rewrite He.
      by rewrite <- app_assoc.
    + cbn [ret]. rewrite IH by done.
      rewrite filter_cons_False by (rewrite He; done). simpl. by rewrite He.
Qed.

(** In a well-formed store the records an iterator over the proposals
    finds are the stored proposals, each once. *)
Lemma proposalRecords_stored s :
  proposals_wf s ->
  NoDup (proposalRecords s)
  /\ forall pr, pr ∈ proposalRecords s <-> proposals s !! pr_ID pr = Some pr.
Proof.
  intros Hwf. unfold proposalRecords. split.
  - apply (NoDup_fmap_1 pr_ID). rewrite <- list_fmap_compose.
    erewrite (list_fmap_ext _ fst); [apply NoDup_fst_map_to_list|].
    intros _ [id pr] Hin%list_elem_of_lookup_2. simpl.
    apply elem_of_map_to_list in Hin. by apply Hwf.
  - intros pr. rewrite list_elem_of_fmap. split.
    + intros ([id pr'] & -> & Hin). apply elem_of_map_to_list in Hin.
      simpl. by rewrite (Hwf _ _ Hin).
    + intros Hl. exists (pr_ID pr, pr). split; [done|].
      by apply elem_of_map_to_list.
Qed.

(** C7: on a well-formed store [CloseExpiredProposals] returns; it
    removes the proposals whose deadline is at or before the block time,
    with every vote under their IDs, and leaves every other proposal and
    vote, the committees, the ID counter and the other key spaces as they
    were; it emits one close event for each proposal it removes.  The
    callback is run on the records found when the iterator is opened,
    which are the stored proposals, each once, whatever the callback
    deletes. *)
Theorem CloseExpiredProposals_sweeps ctx :
  proposals_wf (ms ctx) ->
  votes_wf (ms ctx) ->
  fst (CloseExpiredProposals ctx) = Ok tt
  /\ (forall id,
        proposals (ms (snd (CloseExpiredProposals ctx))) !! id
        = match proposals (ms ctx) !! id with
          | Some pr => if decide (Deadline pr <= blockTime ctx) then None else Some pr
          | None => None
          end)
  /\ (forall id voter,
        votes (ms (snd (CloseExpiredProposals ctx))) !! (id, voter)
        = match proposals (ms ctx) !! id with
          | Some pr => if decide (Deadline pr <= blockTime ctx) then None
                       else votes (ms ctx) !! (id, voter)
          | None => votes (ms ctx) !! (id, voter)
          end)
  /\ committees (ms (snd (CloseExpiredProposals ctx))) = committees (ms ctx)
  /\ nextProposalID (ms (snd (CloseExpiredProposals ctx))) = nextProposalID (ms ctx)
  /\ others (ms (snd (CloseExpiredProposals ctx))) = others (ms ctx)
  /\ events (snd (CloseExpiredProposals ctx))
     = (events ctx ++
        map closeEvent (filter (fun pr => Deadline pr <= blockTime ctx)
                               (proposalRecords (ms ctx))))%list
  /\ NoDup (proposalRecords (ms ctx))
  /\ (forall pr, pr ∈ proposalRecords (ms ctx)
                 <-> proposals (ms ctx) !! pr_ID pr = Some pr).
Proof.
  intros Hpwf Hvwf.
  assert (Hrun : CloseExpiredProposals ctx = _) by
    (unfold CloseExpiredProposals, bind, IterateProposals; cbn [getCtx];
     apply (CloseExpired_iterate (blockTime ctx) _ ctx Hvwf)).
  rewrite Hrun. cbn [fst snd ms events].
  destruct (proposalRecords_stored _ Hpwf) as [Hnd Hstored].
  destruct (sweep_lookup (blockTime ctx) (proposalRecords (ms ctx)) (ms ctx))
    as (Hc & Hn & Ho & Hp & Hv).
  assert (Hids : forall id,
    id ∈ map pr_ID (filter (fun pr => HasExpiredBy pr (blockTime ctx) = true)
                           (proposalRecords (ms ctx)))
    <-> exists pr, proposals (ms ctx) !! id = Some pr
                   /\ Deadline pr <= blockTime ctx).
  { intros id. rewrite list_elem_of_fmap. split.
    - intros (pr & -> & Hin). apply list_elem_of_filter in Hin as [He Hin].
      apply Hstored in Hin. exists pr. split; [done|].
      unfold HasExpiredBy in He. by apply Z.leb_le.
    - intros (pr & Hl & Hd). exists pr.
      pose proof (Hpwf _ _ Hl) as Hid. simpl in Hid. split; [done|].
      apply list_elem_of_filter. split.
      + unfold HasExpiredBy. by apply Z.leb_le.
      + apply Hstored. by rewrite Hid. }
  repeat split; try done.
  - intros id. rewrite Hp.
    destruct (decide (id ∈ _)) as [Hin|Hnin].
    + apply Hids in Hin as (pr & -> & Hd). by rewrite decide_True.
    + destruct (proposals (ms ctx) !! id) as [pr|] eqn:Hl; [|done].
      rewrite decide_False; [done|]. intros Hd. apply Hnin, Hids. eauto.
  - intros id voter. rewrite Hv. simpl.
    destruct (decide (id ∈ _)) as [Hin|Hnin].
    + apply Hids in Hin as (pr & -> & Hd). by rewrite decide_True.
    + destruct (proposals (ms ctx) !! id) as [pr|] eqn:Hl; [|done].
      rewrite decide_False; [done|]. intros Hd. apply Hnin, Hids. eauto.
  - do 2 f_equal. apply list_filter_iff. intros pr.
    unfold HasExpiredBy. by rewrite Z.leb_le.
  - by apply Hstored.
  - by apply Hstored.
Qed.

End CloseProperties.

Lemma CloseExpiredProposals_sweeps_witness :
  let after := ms (snd (CloseExpiredProposals ex_ctx_sweep)) in
  proposals after !! 1%N = None
  /\ proposals after !! 2%N = None
  /\ proposals after !! 3%N = Some (ex_proposal_at 3 150)
  /\ votes after !! (1%N, "alice") = None
  /\ votes after !! (3%N, "bob") = Some {| ProposalID := 3; Voter := "bob" |}.
Proof.
  assert (Hpwf : proposals_wf (ms ex_ctx_sweep)).
  { apply (bool_decide_unpack _). vm_compute. exact I. }
  assert (Hvwf : votes_wf (ms ex_ctx_sweep)).
  { apply (bool_decide_unpack _). vm_compute. exact I. }
  destruct (CloseExpiredProposals_sweeps nat ex_ctx_sweep Hpwf Hvwf)
    as (_ & Hp & Hv & _).
  simpl. rewrite !Hp, !Hv. repeat split; reflexivity.
Defined.

(** * Properties of the cdp genesis *)

Section GenesisProperties.

Variable St : Type.
Variables ModuleName LiquidatorMacc SavingsRateMacc : string.
Variables ModuleAccount Principal Deposit : Type.
Variable Principal_Add : Principal -> Principal -> Principal.
Variable CDP_String : cdp.CDP Principal -> string.
Variable k : cdp.Keeper St Principal Deposit.
Variable pk : cdp.PricefeedKeeper St.
Variable sk : cdp.SupplyKeeper St ModuleAccount.

Let InitGenesis := cdp.InitGenesis St ModuleName LiquidatorMacc SavingsRateMacc
                     ModuleAccount Principal Principal_Add Deposit CDP_String k pk sk.
Let GetModuleAccount := cdp.GetModuleAccount St ModuleAccount sk.

(** A genesis state that does not validate makes [InitGenesis] panic
    before anything else. *)
Lemma InitGenesis_invalid gs st err :
  cdp.Validate Principal Deposit gs = Some err ->
  InitGenesis gs st
  = cdp.Panics ("failed to validate " ++ ModuleName ++ " genesis state: " ++ err).
Proof. intros Hv. unfold InitGenesis, cdp.InitGenesis. by rewrite Hv. Qed.

(** C9: whenever the supply keeper has no account for one of the three
    module accounts (cdp, liquidator, savings rate), looked up in this
    order, [InitGenesis] panics; it has no error result to return.  For a
    genesis state that validates, the panic is "<name> module account has
    not been set" for the first account that is missing. *)
Theorem InitGenesis_missing_module_account gs st :
  (forall st1,
     GetModuleAccount ModuleName st = cdp.Returns None st1 ->
     exists r, InitGenesis gs st = cdp.Panics r
               /\ (cdp.Validate Principal Deposit gs = None ->
                   r = ModuleName ++ " module account has not been set"))
  /\ (forall a st1 st2,
        GetModuleAccount ModuleName st = cdp.Returns (Some a) st1 ->
        GetModuleAccount LiquidatorMacc st1 = cdp.Returns None st2 ->
        exists r, InitGenesis gs st = cdp.Panics r
                  /\ (cdp.Validate Principal Deposit gs = None ->
                      r = LiquidatorMacc ++ " module account has not been set"))
  /\ (forall a b st1 st2 st3,
        GetModuleAccount ModuleName st = cdp.Returns (Some a) st1 ->
        GetModuleAccount LiquidatorMacc st1 = cdp.Returns (Some b) st2 ->
        GetModuleAccount SavingsRateMacc st2 = cdp.Returns None st3 ->
        exists r, InitGenesis gs st = cdp.Panics r
                  /\ (cdp.Validate Principal Deposit gs = None ->
                      r = SavingsRateMacc ++ " module account has not been set")).
Proof.
  unfold InitGenesis, GetModuleAccount, cdp.InitGenesis.
  destruct (cdp.Validate Principal Deposit gs) as [err|] eqn:Hv.
  { split; [|split]; intros; eexists; (split; [reflexivity|done]). }
  split; [|split].
  - intros st1 H1. eexists. split; [|done].
    unfold cdp.bind. by rewrite H1.
  - intros a st1 st2 H1 H2. eexists. split; [|done].
    unfold cdp.bind at 1. rewrite H1.
    unfold cdp.bind at 1. by rewrite H2.
  - intros a b st1 st2 st3 H1 H2 H3. eexists. split; [|done].
    unfold cdp.bind at 1. rewrite H1.
    unfold cdp.bind at 1. rewrite H2.
    unfold cdp.bind at 1. by rewrite H3.
Qed.

End GenesisProperties.

Lemma InitGenesis_missing_module_account_witness :
  ex_InitGenesis ex_genesis ["cdp"; "liquidator"]
  = cdp.Panics "savings module account has not been set".
Proof.
  destruct (proj2 (proj2 (InitGenesis_missing_module_account (list string)
              "cdp" "liquidator" "savings" string Z unit Z.add (fun _ => "cdp")
              ex_cdp_keeper ex_pk ex_sk ex_genesis ["cdp"; "liquidator"]))
              "cdp" "liquidator" ["cdp"; "liquidator"] ["cdp"; "liquidator"]
              ["cdp"; "liquidator"] eq_refl eq_refl eq_refl)
    as (r & Hrun & Hr).
  unfold ex_InitGenesis. rewrite Hrun. f_equal. exact (Hr eq_refl).
Defined.

(** * Further properties of the committee keeper *)

Section ValidateOutcomes.

Variable W : Type.
Implicit Types (k : Keeper W) (ctx : Context W) (p : PubProposal)
  (handler : Handler W).

(** A proposal that passes [ValidatePubProposal] has a content, and a
    handler is registered for its route. *)
Lemma ValidatePubProposal_Ok_route k p ctx ctx' :
  ValidatePubProposal k p ctx = (Ok tt, ctx') ->
  exists c handler, p = Some c /\ router k !! ProposalRoute c = Some handler.
Proof.
  unfold ValidatePubProposal. destruct p as [c|]; [|done].
  destruct (ValidateBasic c); [done|].
  destruct (HasRoute (router k) (ProposalRoute c)) eqn:Hr; [|done].
  destruct (GetRoute_HasRoute _ _ Hr) as (h & Hh & _). eauto.
Qed.

(** X1: [ValidatePubProposal] rejects a nil proposal, a proposal whose
    [ValidateBasic] fails (with that very error, whether or not a handler
    is registered) and a proposal without a registered handler, in this
    order, and in none of the three cases is a handler run: the context,
    environment included, is exactly the one before the call. *)
Theorem ValidatePubProposal_rejects_before_dry_run k ctx :
  ValidatePubProposal k None ctx
  = (Err (ErrInvalidPubProposal (codespace k) "pub proposal cannot be nil"), ctx)
  /\ (forall c err,
        ValidateBasic c = Some err ->
        ValidatePubProposal k (Some c) ctx = (Err err, ctx))
  /\ (forall c,
        ValidateBasic c = None ->
        router k !! ProposalRoute c = None ->
        ValidatePubProposal k (Some c) ctx
        = (Err (ErrNoProposalHandlerExists (codespace k) (ProposalRoute c)), ctx)).
Proof.
  split; [done|]. split.
  - intros c err Hb. unfold ValidatePubProposal. by rewrite Hb.
  - intros c Hb Hr. unfold ValidatePubProposal, HasRoute. rewrite Hb, Hr.
    rewrite bool_decide_eq_false_2; [done|]. by intros [h Hh].
Qed.

(** X2: [ValidatePubProposal] returns nil exactly when the proposal is
    not nil, its [ValidateBasic] returns nil, a handler is registered for
    its route and that handler, on the cache context, returns nil or
    panics with the value nil, which the deferred [recover] does not tell
    from no panic; the context is then the one before the call with the
    environment the handler left.  A handler error is returned as it
    is. *)
Theorem ValidatePubProposal_Ok_iff k p ctx ctx' :
  (ValidatePubProposal k p ctx = (Ok tt, ctx') <->
   exists c handler cacheCtx',
     p = Some c /\ ValidateBasic c = None
     /\ router k !! ProposalRoute c = Some handler
     /\ (handler (fst (CacheContext ctx)) (Some c) = (HOk, cacheCtx')
         \/ handler (fst (CacheContext ctx)) (Some c) = (HPanic PanicNil, cacheCtx'))
     /\ ctx' = leftBy cacheCtx' ctx)
  /\ (forall c handler err cacheCtx',
        p = Some c -> ValidateBasic c = None ->
        router k !! ProposalRoute c = Some handler ->
        handler (fst (CacheContext ctx)) (Some c) = (HErr err, cacheCtx') ->
        ValidatePubProposal k p ctx = (Err err, leftBy cacheCtx' ctx)).
Proof.
  split.
  - split.
    + destruct p as [c|]; [|done].
      destruct (ValidateBasic c) as [err|] eqn:Hb.
      { unfold ValidatePubProposal. by rewrite Hb. }
      destruct (router k !! ProposalRoute c) as [handler|] eqn:Hr.
      * rewrite (ValidatePubProposal_dry_run k c handler ctx Hb Hr).
        destruct (handler _ _) as [out cacheCtx'] eqn:Hrun. simpl.
        destruct out as [| |[s|]]; simpl; intros [= <-].
        -- exists c, handler, cacheCtx'. repeat split; try done. by left.
        -- exists c, handler, cacheCtx'. repeat split; try done. by right.
      * unfold ValidatePubProposal, HasRoute. rewrite Hb, Hr.
        rewrite bool_decide_eq_false_2; [done|]. by intros [h Hh].
    + intros (c & handler & cacheCtx' & -> & Hb & Hr & [Hrun|Hrun] & ->).
      * rewrite (ValidatePubProposal_dry_run k c handler ctx Hb Hr).
        by rewrite Hrun.
      * rewrite (ValidatePubProposal_dry_run k c handler ctx Hb Hr).
        by rewrite Hrun.
  - intros c handler err cacheCtx' -> Hb Hr Hrun.
    rewrite (ValidatePubProposal_dry_run k c handler ctx Hb Hr).
    by rewrite Hrun.
Qed.

End ValidateOutcomes.

Arguments ValidatePubProposal_Ok_route {W} k p ctx ctx' _.

Lemma ValidatePubProposal_rejects_before_dry_run_witness :
  ValidatePubProposal ex_keeper_flaky
    (Some {| ProposalRoute := "upgrade"; ValidateBasic := None; Title := "v2" |})
    ex_ctx
  = (Err (ErrNoProposalHandlerExists "committee" "upgrade"), ex_ctx).
Proof.
  apply (proj2 (proj2 (ValidatePubProposal_rejects_before_dry_run nat
                  ex_keeper_flaky ex_ctx))); reflexivity.
Defined.

Lemma ValidatePubProposal_Ok_iff_witness :
  ValidatePubProposal ex_keeper_good (Some ex_content) ex_ctx = (Ok tt, ex_ctx).
Proof.
  apply (proj1 (ValidatePubProposal_Ok_iff nat ex_keeper_good
                  (Some ex_content) ex_ctx ex_ctx)).
  exists ex_content, ex_good,
    (with_ms (set_others (insert "debt_limit" "1000") ex_store)
       (fst (CacheContext ex_ctx))).
  split; [reflexivity|]. split; [reflexivity|]. split; [reflexivity|].
  split; [left; reflexivity | reflexivity].
Defined.

Section EnactOutcomes.

Variable W : Type.
Variable ErrorString : Error -> string.
Implicit Types (k : Keeper W) (ctx : Context W) (handler : Handler W).

(** The run of [EnactProposal] once the proposal is found, has passed the
    re-validation and its handler is looked up. *)
Lemma EnactProposal_live_run k ctx proposalID pr c handler ctx1 :
  GetProposal ctx proposalID = Some pr ->
  pr_PubProposal pr = Some c ->
  router k !! ProposalRoute c = Some handler ->
  ValidatePubProposal k (Some c) ctx = (Ok tt, ctx1) ->
  EnactProposal ErrorString k proposalID ctx =
    (match fst (handler ctx1 (Some c)) with
     | HOk => Ok tt
     | HErr err => Panic ("unexpected handler error: " ++ ErrorString err)
     | HPanic r => Panic r
     end, snd (handler ctx1 (Some c))).
Proof.
  intros Hg Hc Hr Hv. unfold EnactProposal, bind. simpl.
  rewrite Hg, Hc, Hv. unfold pr_ProposalRoute, GetRoute, callHandler.
  rewrite Hc, Hr. simpl.
  destruct (handler ctx1 (Some c)) as [out ctx2]. by destruct out.
Qed.

(** The cases in which [EnactProposal] does not reach the handler call on
    the live context. *)
Lemma EnactProposal_early k ctx proposalID :
  (GetProposal ctx proposalID = None /\
   EnactProposal ErrorString k proposalID ctx
   = (Err (ErrUnknownProposal (codespace k) proposalID), ctx))
  \/ (exists pr e ctx1,
        GetProposal ctx proposalID = Some pr
        /\ ValidatePubProposal k (pr_PubProposal pr) ctx = (Err e, ctx1)
        /\ EnactProposal ErrorString k proposalID ctx = (Err e, ctx1))
  \/ (exists pr c handler ctx1,
        GetProposal ctx proposalID = Some pr
        /\ pr_PubProposal pr = Some c
        /\ router k !! ProposalRoute c = Some handler
        /\ ValidatePubProposal k (Some c) ctx = (Ok tt, ctx1)).
Proof.
  destruct (GetProposal ctx proposalID) as [pr|] eqn:Hg.
  2:{ left. split; [done|]. by apply EnactProposal_unknown. }
  right.
  destruct (ValidatePubProposal k (pr_PubProposal pr) ctx) as [[[]|e|r] ctx1] eqn:Hv.
  - right. destruct (ValidatePubProposal_Ok_route k _ ctx ctx1 Hv)
      as (c & handler & Hc & Hr).
    exists pr, c, handler, ctx1. repeat split; try done. by rewrite <- Hc.
  - left. exists pr, e, ctx1. repeat split; try done.
    unfold EnactProposal, bind. simpl. by rewrite Hg, Hv.
  - by destruct (ValidatePubProposal_no_panic k (pr_PubProposal pr) ctx r ctx1).
Qed.

(** X3: [EnactProposal] panics only through the handler call on the live
    context: when it ends in a panic, the proposal is in the store with a
    content that passed the re-validation, and its handler either
    panicked itself or returned an error.  A stored proposal without
    content, or for whose route no handler is registered, gives an error,
    not the nil dereference or the router's panic. *)
Theorem EnactProposal_panics_only_in_handler k ctx proposalID r ctx' :
  EnactProposal ErrorString k proposalID ctx = (Panic r, ctx') ->
  exists pr c handler ctx1,
    GetProposal ctx proposalID = Some pr
    /\ pr_PubProposal pr = Some c
    /\ router k !! ProposalRoute c = Some handler
    /\ ValidatePubProposal k (Some c) ctx = (Ok tt, ctx1)
    /\ (handler ctx1 (Some c) = (HPanic r, ctx')
        \/ exists err, handler ctx1 (Some c) = (HErr err, ctx')
                       /\ r = "unexpected handler error: " ++ ErrorString err).
Proof.
  intros Hrun.
  destruct (EnactProposal_early k ctx proposalID)
    as [[_ He]|[(pr & e & ctx1 & _ & _ & He)|(pr & c & handler & ctx1 & Hg & Hc & Hr & Hv)]].
  - by rewrite He in Hrun.
  - by rewrite He in Hrun.
  - exists pr, c, handler, ctx1. repeat split; try done.
    rewrite (EnactProposal_live_run _ _ _ _ _ _ _ Hg Hc Hr Hv) in Hrun.
    destruct (handler ctx1 (Some c)) as [out ctx2]. simpl in Hrun.
    destruct out; simplify_eq; eauto.
Qed.

(** X4: [EnactProposal] returns nil exactly when the proposal is in the
    store, its content passes the re-validation and the handler returns
    nil on the live context; the context is then the one the handler
    left.  Neither the votes nor the deadline of the proposal are looked
    at. *)
Theorem EnactProposal_Ok_iff k ctx proposalID ctx' :
  EnactProposal ErrorString k proposalID ctx = (Ok tt, ctx') <->
  exists pr c handler ctx1,
    GetProposal ctx proposalID = Some pr
    /\ pr_PubProposal pr = Some c
    /\ router k !! ProposalRoute c = Some handler
    /\ ValidatePubProposal k (Some c) ctx = (Ok tt, ctx1)
    /\ handler ctx1 (Some c) = (HOk, ctx').
Proof.
  split.
  - intros Hrun.
    destruct (EnactProposal_early k ctx proposalID)
      as [[_ He]|[(pr & e & ctx1 & _ & _ & He)|(pr & c & handler & ctx1 & Hg & Hc & Hr & Hv)]].
    + by rewrite He in Hrun.
    + by rewrite He in Hrun.
    + exists pr, c, handler, ctx1. repeat split; try done.
      rewrite (EnactProposal_live_run _ _ _ _ _ _ _ Hg Hc Hr Hv) in Hrun.
      destruct (handler ctx1 (Some c)) as [out ctx2]. simpl in Hrun.
      by destruct out; simplify_eq.
  - intros (pr & c & handler & ctx1 & Hg & Hc & Hr & Hv & Hrun).
    rewrite (EnactProposal_live_run _ _ _ _ _ _ _ Hg Hc Hr Hv).
    by rewrite Hrun.
Qed.

(** X5: [EnactProposal] writes nothing to the committee module's key
    spaces itself.  With handlers that leave these key spaces alone, the
    committees, proposals, votes and ID counter are after the call what
    they were before, whatever its outcome: an enacted proposal stays in
    the store with its votes. *)
Theorem EnactProposal_keeps_proposal k ctx proposalID :
  (forall route handler, router k !! route = Some handler ->
                         keeps_committee_store handler) ->
  committees (ms (snd (EnactProposal ErrorString k proposalID ctx)))
  = committees (ms ctx)
  /\ proposals (ms (snd (EnactProposal ErrorString k proposalID ctx)))
     = proposals (ms ctx)
  /\ votes (ms (snd (EnactProposal ErrorString k proposalID ctx)))
     = votes (ms ctx)
  /\ nextProposalID (ms (snd (EnactProposal ErrorString k proposalID ctx)))
     = nextProposalID (ms ctx).
Proof.
  intros Hk.
  destruct (EnactProposal_early k ctx proposalID)
    as [[_ He]|[(pr & e & ctx1 & _ & Hv & He)|(pr & c & handler & ctx1 & Hg & Hc & Hr & Hv)]].
  - by rewrite He.
  - rewrite He. simpl.
    destruct (ValidatePubProposal_frame k (pr_PubProposal pr) ctx) as [w Hw].
    rewrite Hv in Hw. simpl in Hw. by subst ctx1.
  - rewrite (EnactProposal_live_run _ _ _ _ _ _ _ Hg Hc Hr Hv). simpl.
    destruct (ValidatePubProposal_frame k (Some c) ctx) as [w Hw].
    rewrite Hv in Hw. simpl in Hw. subst ctx1.
    apply (Hk _ _ Hr (with_env w ctx) (Some c)).
Qed.

End EnactOutcomes.

Lemma EnactProposal_panics_only_in_handler_witness :
  exists pr c handler ctx1,
    GetProposal ex_ctx1 1 = Some pr
    /\ pr_PubProposal pr = Some c
    /\ router ex_keeper_flaky !! ProposalRoute c = Some handler
    /\ ValidatePubProposal ex_keeper_flaky (Some c) ex_ctx1 = (Ok tt, ctx1)
    /\ (handler ctx1 (Some c)
        = (HPanic "unexpected handler error: parameter is not recognized",
           with_env 3%nat ex_ctx1)
        \/ exists err,
             handler ctx1 (Some c) = (HErr err, with_env 3%nat ex_ctx1)
             /\ PanicText "unexpected handler error: parameter is not recognized"
                = "unexpected handler error: " ++ ex_ErrorString err).
Proof.
  apply (EnactProposal_panics_only_in_handler nat ex_ErrorString
           ex_keeper_flaky ex_ctx1 1%N).
  reflexivity.
Defined.

Lemma EnactProposal_keeps_proposal_witness :
  fst (EnactProposal ex_ErrorString ex_keeper_good 1 ex_ctx1) = Ok tt
  /\ proposals (ms (snd (EnactProposal ex_ErrorString ex_keeper_good 1 ex_ctx1)))
     = proposals (ms ex_ctx1).
Proof.
  split; [reflexivity|].
  apply (EnactProposal_keeps_proposal nat ex_ErrorString ex_keeper_good ex_ctx1 1%N).
  intros route handler Hl. unfold ex_keeper_good in Hl. simpl in Hl.
  apply lookup_singleton_Some in Hl as [_ <-].
  intros ctx p. repeat split; reflexivity.
Defined.

Section VoteOutcomes.

Variable W : Type.
Implicit Types (k : Keeper W) (ctx : Context W) (s : Store).

(** X6: [AddVote] returns nil exactly when the proposal is in the store
    and has not expired by the block time, its committee is in the store
    and the voter is one of its members; it then stores the vote under
    the (ProposalID, Voter) key and emits one vote event.  When it
    returns an error the context is exactly as before, and it never
    panics. *)
Theorem AddVote_Ok_iff k proposalID voter ctx :
  (forall ctx',
     AddVote k proposalID voter ctx = (Ok tt, ctx') <->
     exists pr com,
       GetProposal ctx proposalID = Some pr
       /\ HasExpiredBy pr (blockTime ctx) = false
       /\ GetCommittee ctx (pr_CommitteeID pr) = Some com
       /\ HasMember com voter = true
       /\ ctx' =
          Build_Context
            (applyOp (OpSetVote {| ProposalID := proposalID; Voter := voter |})
                     (ms ctx))
            (blockTime ctx)
            (events ctx ++
               [{| ev_Type := EventTypeProposalVote;
                   ev_Attributes :=
                     [(AttributeKeyCommitteeID, Sprintf_d (com_ID com));
                      (AttributeKeyProposalID, Sprintf_d (pr_ID pr))] |}])
            (env ctx))
  /\ (forall e ctx', AddVote k proposalID voter ctx = (Err e, ctx') -> ctx' = ctx)
  /\ (forall r ctx', AddVote k proposalID voter ctx <> (Panic r, ctx')).
Proof.
  unfold AddVote, bind. simpl.
  destruct (GetProposal ctx proposalID) as [pr|] eqn:Hg; [|by settle].
  destruct (HasExpiredBy pr (blockTime ctx)) eqn:He; [by settle|].
  destruct (GetCommittee ctx (pr_CommitteeID pr)) as [com|] eqn:Hc; [|by settle].
  destruct (HasMember com voter) eqn:Hm; simpl; [|by settle].
  split; [|split]; [|done|done].
  intros ctx'. split.
  - intros [= <-]. exists pr, com. repeat split; done.
  - intros (pr' & com' & Hpr & _ & Hcom & _ & ->).
    injection Hpr as <-. rewrite Hc in Hcom. by injection Hcom as <-.
Qed.

(** [TallyVotes] is the number of keys of the vote key space that start
    with the proposal's ID. *)
Lemma TallyVotes_size ctx proposalID :
  TallyVotes ctx proposalID
  = Z.of_nat (size (filter (fun kv : N * Address * Vote => fst (fst kv) = proposalID)
                           (votes (ms ctx)))).
Proof.
  rewrite TallyVotes_entries. unfold voteEntries. by rewrite length_map_to_list.
Qed.

(** The number of keys under a proposal after a vote is stored. *)
Lemma size_votes_insert (m : gmap (N * Address) Vote) proposalID voter v :
  size (filter (fun kv : N * Address * Vote => fst (fst kv) = proposalID)
               (<[(proposalID, voter) := v]> m))
  = (size (filter (fun kv : N * Address * Vote => fst (fst kv) = proposalID) m)
     + match m !! (proposalID, voter) with Some _ => 0 | None => 1 end)%nat.
Proof.
  rewrite map_filter_insert_True by done.
  rewrite map_size_insert.
  destruct (m !! (proposalID, voter)) as [v'|] eqn:Hl.
  - erewrite (proj2 (map_lookup_filter_Some _ _ _ v')) by done. simpl. lia.
  - rewrite (proj2 (map_lookup_filter_None _ _ _)) by (by left). simpl. lia.
Qed.

(** X7: a vote that is accepted raises the tally of its proposal by one
    when the voter had no vote on it in the store and leaves it unchanged
    when the voter had one; the tally of every other proposal is
    unchanged. *)
Theorem AddVote_tally k proposalID voter ctx ctx' :
  AddVote k proposalID voter ctx = (Ok tt, ctx') ->
  TallyVotes ctx' proposalID
  = TallyVotes ctx proposalID
    + match votes (ms ctx) !! (proposalID, voter) with
      | Some _ => 0
      | None => 1
      end
  /\ forall other, other <> proposalID ->
       TallyVotes ctx' other = TallyVotes ctx other.
Proof.
  intros Hrun. apply AddVote_Ok_inv in Hrun.
  rewrite !TallyVotes_size. split.
  - rewrite Hrun. simpl. rewrite size_votes_insert.
    destruct (votes (ms ctx) !! (proposalID, voter)); lia.
  - intros other Hne. rewrite !TallyVotes_size, Hrun. simpl.
    rewrite map_filter_insert_not; [done|].
    intros v. simpl. congruence.
Qed.

(** X8: on a well-formed store the votes [TallyVotes] counts are by
    pairwise different voters, one for each voter with a vote on the
    proposal in the store. *)
Theorem TallyVotes_distinct_voters ctx proposalID :
  votes_wf (ms ctx) ->
  NoDup (map Voter (voteRecords (ms ctx) proposalID))
  /\ TallyVotes ctx proposalID
     = Z.of_nat (length (map Voter (voteRecords (ms ctx) proposalID)))
  /\ forall voter,
       voter ∈ map Voter (voteRecords (ms ctx) proposalID)
       <-> is_Some (votes (ms ctx) !! (proposalID, voter)).
Proof.
  intros Hwf.
  assert (Hent : forall key v,
            (key, v) ∈ voteEntries (ms ctx) proposalID ->
            votes (ms ctx) !! key = Some v /\ key = (proposalID, Voter v)).
  { intros key v Hin. apply elem_of_map_to_list in Hin.
    apply map_lookup_filter_Some in Hin as [Hl Hk]. split; [done|].
    pose proof (Hwf _ _ Hl) as <-. simpl in *. by rewrite Hk. }
  split; [|split].
  - unfold voteRecords. change (map Voter ?l) with (Voter <$> l).
    rewrite <- list_fmap_compose.
    apply NoDup_fmap_2_strong; [|apply NoDup_map_to_list].
    intros [k1 v1] [k2 v2] H1 H2 Heq. simpl in Heq.
    apply Hent in H1 as [Hl1 ->]. apply Hent in H2 as [Hl2 ->].
    rewrite Heq in Hl1. rewrite Heq. f_equal. congruence.
  - rewrite TallyVotes_entries. unfold voteRecords.
    by rewrite length_map, length_fmap.
  - intros voter. change (map Voter ?l) with (Voter <$> l).
    rewrite list_elem_of_fmap. split.
    + intros (v & -> & Hv). apply list_elem_of_fmap in Hv as ([key v'] & -> & Hin).
      apply Hent in Hin as [Hl ->]. simpl in *. eauto.
    + intros [v Hl]. exists v.
      pose proof (Hwf _ _ Hl) as Hkey. simpl in Hkey.
      split; [congruence|]. apply list_elem_of_fmap. exists ((proposalID, voter), v).
      split; [done|]. apply elem_of_map_to_list.
      by apply map_lookup_filter_Some.
Qed.

End VoteOutcomes.

Arguments TallyVotes_size {W} ctx proposalID.

Lemma AddVote_tally_witness :
  TallyVotes ex_ctx_two_votes 1 = TallyVotes ex_ctx_voted 1 + 1
  /\ TallyVotes ex_ctx_revoted 1 = TallyVotes ex_ctx_voted 1 + 0.
Proof.
  split.
  - exact (proj1 (AddVote_tally nat ex_keeper_flaky 1%N "bob"
                    ex_ctx_voted ex_ctx_two_votes eq_refl)).
  - exact (proj1 (AddVote_tally nat ex_keeper_flaky 1%N "alice"
                    ex_ctx_voted ex_ctx_revoted eq_refl)).
Defined.

Lemma TallyVotes_distinct_voters_witness :
  NoDup (map Voter (voteRecords (ms ex_ctx_two_votes) 1))
  /\ TallyVotes ex_ctx_two_votes 1 = 2.
Proof.
  assert (Hwf : votes_wf (ms ex_ctx_two_votes)).
  { apply (bool_decide_unpack _). vm_compute. exact I. }
  destruct (TallyVotes_distinct_voters nat ex_ctx_two_votes 1%N Hwf)
    as (Hnd & Hlen & _).
  split; [exact Hnd|]. rewrite Hlen. reflexivity.
Defined.

Section ResultOutcomes.

Variable W : Type.
Implicit Types (k : Keeper W) (ctx : Context W).

(** The run of [GetProposalResult] in terms of [MulInt64]. *)
Lemma GetProposalResult_run k ctx proposalID pr com :
  GetProposal ctx proposalID = Some pr ->
  GetCommittee ctx (pr_CommitteeID pr) = Some com ->
  GetProposalResult k proposalID ctx =
    (match MulInt64 (E := Error) (VoteThreshold com)
             (Z.of_nat (length (Members com))) with
     | Ok quorum => Ok (GTE (NewDec (TallyVotes ctx proposalID)) quorum)
     | Err e => Err e
     | Panic r => Panic r
     end, ctx).
Proof.
  intros Hg Hc. unfold GetProposalResult, bind. simpl. rewrite Hg, Hc. simpl.
  by destruct (MulInt64 _ _).
Qed.

Lemma TallyVotes_nonneg ctx proposalID : 0 <= TallyVotes ctx proposalID.
Proof. unfold TallyVotes. lia. Qed.

(** X9: [GetProposalResult] only reads: the context after the call is the
    context before it, whatever the result.  It returns
    [ErrUnknownProposal] for a proposal that is not in the store and
    [ErrUnknownCommittee] for a proposal whose committee is not. *)
Theorem GetProposalResult_reads_only k ctx proposalID :
  snd (GetProposalResult k proposalID ctx) = ctx
  /\ (GetProposal ctx proposalID = None ->
      fst (GetProposalResult k proposalID ctx)
      = Err (ErrUnknownProposal (codespace k) proposalID))
  /\ (forall pr,
        GetProposal ctx proposalID = Some pr ->
        GetCommittee ctx (pr_CommitteeID pr) = None ->
        fst (GetProposalResult k proposalID ctx)
        = Err (ErrUnknownCommittee (codespace k) (pr_CommitteeID pr))).
Proof.
  destruct (GetProposal ctx proposalID) as [pr|] eqn:Hg.
  2:{ unfold GetProposalResult, bind. simpl. rewrite Hg. by settle. }
  destruct (GetCommittee ctx (pr_CommitteeID pr)) as [com|] eqn:Hc.
  2:{ unfold GetProposalResult, bind. simpl. rewrite Hg, Hc. by settle. }
  rewrite (GetProposalResult_run _ _ _ _ _ Hg Hc). by settle.
Qed.

(** X10: a committee without members, or with a threshold of zero, passes
    every one of its proposals, also one without any vote. *)
Theorem GetProposalResult_empty_committee k ctx proposalID pr com :
  GetProposal ctx proposalID = Some pr ->
  GetCommittee ctx (pr_CommitteeID pr) = Some com ->
  Members com = [] \/ VoteThreshold com = 0 ->
  GetProposalResult k proposalID ctx = (Ok true, ctx).
Proof.
  intros Hg Hc Hzero. rewrite (GetProposalResult_run _ _ _ _ _ Hg Hc).
  assert (Hq : VoteThreshold com * Z.of_nat (length (Members com)) = 0).
  { destruct Hzero as [-> | ->]; simpl; lia. }
  unfold MulInt64. rewrite Hq. simpl.
  do 2 f_equal. unfold GTE, NewDec.
  pose proof (TallyVotes_nonneg ctx proposalID).
  apply Z.geb_le. unfold precisionReuse, Precision. lia.
Qed.

(** X11: with a threshold in (0,1] and at least one member, a proposal
    without votes does not pass, and a proposal on which the tally has
    reached the number of members passes. *)
Theorem GetProposalResult_none_and_all k ctx proposalID pr com :
  GetProposal ctx proposalID = Some pr ->
  GetCommittee ctx (pr_CommitteeID pr) = Some com ->
  0 < VoteThreshold com <= precisionReuse ->
  0 < Z.of_nat (length (Members com)) < 2 ^ 63 ->
  (TallyVotes ctx proposalID = 0 ->
   GetProposalResult k proposalID ctx = (Ok false, ctx))
  /\ (Z.of_nat (length (Members com)) <= TallyVotes ctx proposalID ->
      GetProposalResult k proposalID ctx = (Ok true, ctx)).
Proof.
  intros Hg Hc [Ht0 Ht1] [Hn0 Hn1].
  rewrite (GetProposalResult_run _ _ _ _ _ Hg Hc).
  unfold MulInt64.
  assert (Hb : BitLen (VoteThreshold com * Z.of_nat (length (Members com))) <= 315).
  { apply BitLen_small. unfold precisionReuse, Precision in Ht1.
    split; [nia|].
    apply Z.le_lt_trans with (10 ^ 18 * 2 ^ 63); [nia|]. reflexivity. }
  destruct (Z.ltb_spec (255 + DecimalPrecisionBits)
              (BitLen (VoteThreshold com * Z.of_nat (length (Members com)))))
    as [Hlt|_].
  { unfold DecimalPrecisionBits in Hlt. lia. }
  unfold GTE, NewDec. unfold precisionReuse, Precision in *.
  split; intros Htally; do 2 f_equal.
  - rewrite Htally. apply not_true_is_false. intros Hge.
    apply Z.geb_le in Hge. nia.
  - apply Z.geb_le. nia.
Qed.

(** X12: a vote that is accepted never turns a passing proposal into a
    failing one: when [GetProposalResult] returns true and [AddVote] then
    returns nil for the proposal, [GetProposalResult] returns true
    again. *)
Theorem GetProposalResult_monotone k ctx proposalID voter ctx' :
  GetProposalResult k proposalID ctx = (Ok true, ctx) ->
  AddVote k proposalID voter ctx = (Ok tt, ctx') ->
  GetProposalResult k proposalID ctx' = (Ok true, ctx').
Proof.
  intros Hres Hvote.
  apply AddVote_Ok_inv in Hvote.
  assert (Htally : TallyVotes ctx proposalID <= TallyVotes ctx' proposalID).
  { rewrite !TallyVotes_size, Hvote. simpl. rewrite size_votes_insert. lia. }
  destruct (GetProposal ctx proposalID) as [pr|] eqn:Hg.
  2:{ unfold GetProposalResult, bind in Hres. simpl in Hres.
      by rewrite Hg in Hres. }
  destruct (GetCommittee ctx (pr_CommitteeID pr)) as [com|] eqn:Hc.
  2:{ unfold GetProposalResult, bind in Hres. simpl in Hres.
      by rewrite Hg, Hc in Hres. }
  rewrite (GetProposalResult_run _ _ _ _ _ Hg Hc) in Hres.
  assert (Hg' : GetProposal ctx' proposalID = Some pr).
  { unfold GetProposal in *. by rewrite Hvote. }
  assert (Hc' : GetCommittee ctx' (pr_CommitteeID pr) = Some com).
  { unfold GetCommittee in *. by rewrite Hvote. }
  rewrite (GetProposalResult_run _ _ _ _ _ Hg' Hc').
  destruct (MulInt64 _ _) as [quorum| |]; [|done|done].
  injection Hres as Hres. do 2 f_equal.
  unfold GTE, NewDec in *. apply Z.geb_le. apply Z.geb_le in Hres.
  unfold precisionReuse, Precision in *. nia.
Qed.

End ResultOutcomes.

Arguments GetProposalResult_run {W} k ctx proposalID pr com _ _.

Lemma GetProposalResult_monotone_witness :
  GetProposalResult ex_keeper_flaky 1
    (snd (AddVote ex_keeper_flaky 1 "carol" ex_ctx_two_votes))
  = (Ok true, snd (AddVote ex_keeper_flaky 1 "carol" ex_ctx_two_votes)).
Proof.
  apply (GetProposalResult_monotone nat ex_keeper_flaky ex_ctx_two_votes 1%N "carol");
    reflexivity.
Defined.

Lemma GetProposalResult_none_and_all_witness :
  TallyVotes ex_ctx1 1 = 0
  /\ GetProposalResult ex_keeper_flaky 1 ex_ctx1 = (Ok false, ex_ctx1).
Proof.
  split; [reflexivity|].
  assert (Hthr : 0 < VoteThreshold ex_committee <= precisionReuse)
    by (vm_compute; split; [reflexivity | discriminate]).
  assert (Hlen : 0 < Z.of_nat (length (Members ex_committee)) < 2 ^ 63)
    by (split; reflexivity).
  apply (proj1 (GetProposalResult_none_and_all nat ex_keeper_flaky ex_ctx1 1%N
                  ex_proposal ex_committee eq_refl eq_refl Hthr Hlen)).
  reflexivity.
Defined.

Lemma GetProposalResult_empty_committee_witness :
  TallyVotes ex_ctx_more 1 = 0
  /\ GetProposalResult ex_keeper_good 1 ex_ctx_more = (Ok true, ex_ctx_more).
Proof.
  split; [reflexivity|].
  apply (GetProposalResult_empty_committee nat ex_keeper_good ex_ctx_more 1%N
           {| pr_PubProposal := Some ex_content; pr_ID := 1;
              pr_CommitteeID := 2; Deadline := 100 |} ex_committee_empty);
    [reflexivity | reflexivity | left; reflexivity].
Defined.

Section SweepOutcomes.

Variable W : Type.
Implicit Types (k : Keeper W) (ctx : Context W) (s : Store).

Lemma purge_idemp s id : purge id (purge id s) = purge id s.
Proof.
  unfold purge, set_votes, set_proposals. simpl. f_equal.
  - apply map_eq. intros i. destruct (decide (i = id)) as [->|Hne].
    + by rewrite !lookup_delete_eq.
    + by rewrite !lookup_delete_ne.
  - apply map_filter_id. intros key v Hl.
    by apply map_lookup_filter_Some in Hl as [_ Hk].
Qed.

Lemma voteEntries_purge_other s id other :
  other <> id -> voteEntries (purge id s) other = voteEntries s other.
Proof.
  intros Hne. unfold voteEntries, purge. simpl. f_equal.
  apply map_eq. intros key. apply option_eq. intros v.
  rewrite !map_lookup_filter_Some. simpl. split.
  - by intros [[Hl _] Hk].
  - intros [Hl Hk]. repeat split; try done. congruence.
Qed.

Lemma voteEntries_purge_same s id : voteEntries (purge id s) id = [].
Proof.
  unfold voteEntries, purge. simpl.
  apply map_to_list_empty_iff. apply map_empty. intros key.
  apply map_lookup_filter_None. right. intros v Hl Hk.
  by apply map_lookup_filter_Some in Hl as [_ Hne].
Qed.

(** X13: on a well-formed store [DeleteProposalAndVotes] leaves every
    other proposal with its votes and tally, the committees, the ID
    counter, the other key spaces and the events as they were; the tally
    of the deleted proposal is 0 afterwards, and a second call changes
    nothing. *)
Theorem DeleteProposalAndVotes_frame ctx proposalID :
  votes_wf (ms ctx) ->
  TallyVotes (snd (DeleteProposalAndVotes proposalID ctx)) proposalID = 0
  /\ (forall other, other <> proposalID ->
        GetProposal (snd (DeleteProposalAndVotes proposalID ctx)) other
        = GetProposal ctx other
        /\ voteRecords (ms (snd (DeleteProposalAndVotes proposalID ctx))) other
           = voteRecords (ms ctx) other
        /\ TallyVotes (snd (DeleteProposalAndVotes proposalID ctx)) other
           = TallyVotes ctx other)
  /\ committees (ms (snd (DeleteProposalAndVotes proposalID ctx)))
     = committees (ms ctx)
  /\ nextProposalID (ms (snd (DeleteProposalAndVotes proposalID ctx)))
     = nextProposalID (ms ctx)
  /\ others (ms (snd (DeleteProposalAndVotes proposalID ctx))) = others (ms ctx)
  /\ events (snd (DeleteProposalAndVotes proposalID ctx)) = events ctx
  /\ DeleteProposalAndVotes proposalID (snd (DeleteProposalAndVotes proposalID ctx))
     = (Ok tt, snd (DeleteProposalAndVotes proposalID ctx)).
Proof.
  intros Hwf. rewrite (DeleteProposalAndVotes_run _ _ Hwf). cbn [snd].
  split; [|split; [|repeat split]].
  - rewrite TallyVotes_entries. simpl. by rewrite voteEntries_purge_same.
  - intros other Hne. repeat split.
    + unfold GetProposal. simpl. by apply lookup_delete_ne.
    + unfold voteRecords. simpl. by rewrite voteEntries_purge_other.
    + rewrite !TallyVotes_entries. simpl. by rewrite voteEntries_purge_other.
  - rewrite DeleteProposalAndVotes_run.
    + simpl. by rewrite purge_idemp.
    + simpl. unfold votes_wf, purge. simpl.
      intros key v Hl. apply map_lookup_filter_Some in Hl as [Hl _].
      by apply Hwf.
Qed.

(** The callback of [CloseExpiredProposals] over proposals none of which
    has expired changes nothing. *)
Lemma CloseExpired_iterate_none now (l : list Proposal) ctx :
  Forall (fun pr => HasExpiredBy pr now = false) l ->
  iterateM (fun proposal =>
      if HasExpiredBy proposal now
      then bind (DeleteProposalAndVotes (pr_ID proposal)) (fun _ =>
           bind (EmitEvent (closeEvent proposal)) (fun _ => ret false))
      else ret false) l ctx
  = (Ok tt, ctx).
Proof.
  induction 1 as [|pr l He _ IH]; [done|].
  cbn [iterateM]. unfold bind at 1. rewrite He. cbn [ret]. exact IH.
Qed.

Lemma records_unexpired now s :
  (forall id pr, proposals s !! id = Some pr -> now < Deadline pr) ->
  Forall (fun pr => HasExpiredBy pr now = false) (proposalRecords s).
Proof.
  intros Hnone. apply Forall_forall. intros pr Hin. unfold proposalRecords in Hin.
  apply list_elem_of_fmap in Hin as ([id pr'] & -> & Hin).
  apply elem_of_map_to_list in Hin. simpl.
  unfold HasExpiredBy. apply Z.leb_gt. by apply (Hnone id).
Qed.

(** X14: when no proposal in the store has its deadline at or before the
    block time, [CloseExpiredProposals] returns with the context exactly
    as it was: nothing is deleted and no event is emitted. *)
Theorem CloseExpiredProposals_nothing_expired ctx :
  (forall id pr, proposals (ms ctx) !! id = Some pr -> blockTime ctx < Deadline pr) ->
  CloseExpiredProposals ctx = (Ok tt, ctx).
Proof.
  intros Hnone. unfold CloseExpiredProposals, bind, IterateProposals. cbn [getCtx].
  apply (CloseExpired_iterate_none (blockTime ctx)).
  by apply records_unexpired.
Qed.

(** The run of [CloseExpiredProposals] on a store with well-formed
    votes. *)
Lemma CloseExpiredProposals_run ctx :
  votes_wf (ms ctx) ->
  CloseExpiredProposals ctx
  = (Ok tt,
     Build_Context (sweep (blockTime ctx) (proposalRecords (ms ctx)) (ms ctx))
       (blockTime ctx)
       (events ctx ++ map closeEvent
          (filter (fun pr => HasExpiredBy pr (blockTime ctx) = true)
                  (proposalRecords (ms ctx))))
       (env ctx)).
Proof.
  intros Hwf. unfold CloseExpiredProposals, bind, IterateProposals. cbn [getCtx].
  apply (CloseExpired_iterate W (blockTime ctx) _ ctx Hwf).
Qed.

(** The proposals a sweep over the records of a well-formed store leaves:
    those of the store that have not expired. *)
Lemma sweep_records_proposals now s id :
  proposals_wf s ->
  proposals (sweep now (proposalRecords s) s) !! id
  = match proposals s !! id with
    | Some pr => if HasExpiredBy pr now then None else Some pr
    | None => None
    end.
Proof.
  intros Hwf.
  destruct (sweep_lookup now (proposalRecords s) s) as (_ & _ & _ & Hp & _).
  destruct (proposalRecords_stored s Hwf) as [_ Hstored].
  rewrite Hp. destruct (decide (id ∈ _)) as [Hin|Hnin].
  - apply list_elem_of_fmap in Hin as (pr & -> & Hin).
    apply list_elem_of_filter in Hin as [He Hin].
    apply Hstored in Hin. by rewrite Hin, He.
  - destruct (proposals s !! id) as [pr|] eqn:Hl; [|done].
    destruct (HasExpiredBy pr now) eqn:He; [|done].
    destruct Hnin. apply list_elem_of_fmap. exists pr.
    pose proof (Hwf _ _ Hl) as Hid. simpl in Hid. split; [done|].
    apply list_elem_of_filter. split; [done|].
    apply Hstored. by rewrite Hid.
Qed.

(** X15: on a well-formed store a second [CloseExpiredProposals] at the
    same block time changes nothing: after a sweep no proposal with a
    deadline at or before the block time is left. *)
Theorem CloseExpiredProposals_idempotent ctx :
  proposals_wf (ms ctx) ->
  votes_wf (ms ctx) ->
  (forall id pr,
     GetProposal (snd (CloseExpiredProposals ctx)) id = Some pr ->
     blockTime ctx < Deadline pr)
  /\ CloseExpiredProposals (snd (CloseExpiredProposals ctx))
     = (Ok tt, snd (CloseExpiredProposals ctx)).
Proof.
  intros Hpwf Hvwf. rewrite (CloseExpiredProposals_run _ Hvwf). cbn [snd].
  assert (Hleft : forall id pr,
            proposals (sweep (blockTime ctx) (proposalRecords (ms ctx)) (ms ctx))
              !! id = Some pr ->
            blockTime ctx < Deadline pr).
  { intros id pr. rewrite (sweep_records_proposals _ _ _ Hpwf).
    destruct (proposals (ms ctx) !! id) as [pr'|]; [|done].
    destruct (HasExpiredBy pr' (blockTime ctx)) eqn:He; [done|].
    intros [= <-]. unfold HasExpiredBy in He. by apply Z.leb_gt. }
  split; [exact Hleft|].
  unfold CloseExpiredProposals, bind, IterateProposals. cbn [getCtx].
  apply (CloseExpired_iterate_none (blockTime ctx)).
  by apply records_unexpired.
Qed.

(** X16: on a well-formed store, no vote is refused as cast on an expired
    proposal right after [CloseExpiredProposals]: at the same block time
    [AddVote] does not return [ErrProposalExpired]. *)
Theorem AddVote_after_sweep_not_expired k ctx proposalID voter :
  proposals_wf (ms ctx) ->
  votes_wf (ms ctx) ->
  forall cs t deadline ctx',
    AddVote k proposalID voter (snd (CloseExpiredProposals ctx))
    <> (Err (ErrProposalExpired cs t deadline), ctx').
Proof.
  intros Hpwf Hvwf cs t deadline ctx'.
  rewrite (CloseExpiredProposals_run _ Hvwf). cbn [snd].
  unfold AddVote, bind, GetProposal. simpl.
  rewrite (sweep_records_proposals _ _ _ Hpwf).
  destruct (proposals (ms ctx) !! proposalID) as [pr|]; [|done].
  destruct (HasExpiredBy pr (blockTime ctx)) eqn:He; [done|].
  rewrite He.
  destruct (GetCommittee _ _); [|done].
  by destruct (HasMember _ _).
Qed.

End SweepOutcomes.

Lemma DeleteProposalAndVotes_frame_witness :
  TallyVotes (snd (DeleteProposalAndVotes 1 ex_ctx_sweep)) 1 = 0
  /\ TallyVotes (snd (DeleteProposalAndVotes 1 ex_ctx_sweep)) 3 = 1
  /\ GetProposal (snd (DeleteProposalAndVotes 1 ex_ctx_sweep)) 3
     = Some (ex_proposal_at 3 150).
Proof.
  assert (Hwf : votes_wf (ms ex_ctx_sweep)).
  { apply (bool_decide_unpack _). vm_compute. exact I. }
  destruct (DeleteProposalAndVotes_frame nat ex_ctx_sweep 1%N Hwf)
    as (Hzero & Hother & _).
  split; [exact Hzero|].
  destruct (Hother 3%N) as (Hp & _ & Ht); [discriminate|].
  split; [rewrite Ht | rewrite Hp]; reflexivity.
Defined.

Lemma CloseExpiredProposals_nothing_expired_witness :
  CloseExpiredProposals ex_ctx1 = (Ok tt, ex_ctx1).
Proof.
  apply (CloseExpiredProposals_nothing_expired nat ex_ctx1).
  intros id pr Hl. unfold ex_ctx1, ex_store1 in Hl. simpl in Hl.
  apply lookup_singleton_Some in Hl as [_ <-]. reflexivity.
Defined.

Lemma CloseExpiredProposals_idempotent_witness :
  CloseExpiredProposals (snd (CloseExpiredProposals ex_ctx_sweep))
  = (Ok tt, snd (CloseExpiredProposals ex_ctx_sweep)).
Proof.
  assert (Hpwf : proposals_wf (ms ex_ctx_sweep)).
  { apply (bool_decide_unpack _). vm_compute. exact I. }
  assert (Hvwf : votes_wf (ms ex_ctx_sweep)).
  { apply (bool_decide_unpack _). vm_compute. exact I. }
  exact (proj2 (CloseExpiredProposals_idempotent nat ex_ctx_sweep Hpwf Hvwf)).
Defined.

Lemma AddVote_after_sweep_not_expired_witness :
  AddVote ex_keeper_flaky 2 "alice" (snd (CloseExpiredProposals ex_ctx_sweep))
  <> (Err (ErrProposalExpired "committee" 100 100),
      snd (CloseExpiredProposals ex_ctx_sweep)).
Proof.
  assert (Hpwf : proposals_wf (ms ex_ctx_sweep)).
  { apply (bool_decide_unpack _). vm_compute. exact I. }
  assert (Hvwf : votes_wf (ms ex_ctx_sweep)).
  { apply (bool_decide_unpack _). vm_compute. exact I. }
  apply (AddVote_after_sweep_not_expired nat ex_keeper_flaky ex_ctx_sweep
           2%N "alice" Hpwf Hvwf).
Defined.

Section SubmitOutcomes.

Variable W : Type.
Implicit Types (k : Keeper W) (ctx : Context W) (s : Store) (p : PubProposal).

(** What a submission that succeeds went through and did. *)
Lemma SubmitProposal_Ok_inv k proposer committeeID p ctx id ctx' :
  SubmitProposal k proposer committeeID p ctx = (Ok id, ctx') ->
  exists com ctx1,
    GetCommittee ctx committeeID = Some com
    /\ HasMember com proposer = true
    /\ HasPermissionsFor com p = true
    /\ ValidatePubProposal k p ctx = (Ok tt, ctx1)
    /\ id = nextProposalID (ms ctx)
    /\ ms ctx' =
       applyOp (OpSetNextProposalID (wrap64 (nextProposalID (ms ctx) + 1)))
         (applyOp (OpSetProposal
                     {| pr_PubProposal := p; pr_ID := nextProposalID (ms ctx);
                        pr_CommitteeID := committeeID;
                        Deadline := blockTime ctx + ProposalDuration com |})
            (ms ctx))
    /\ blockTime ctx' = blockTime ctx
    /\ events ctx' =
       (events ctx ++
          [{| ev_Type := EventTypeProposalSubmit;
              ev_Attributes :=
                [(AttributeKeyCommitteeID, Sprintf_d (com_ID com));
                 (AttributeKeyProposalID, Sprintf_d (nextProposalID (ms ctx)))] |}])%list.
Proof.
  intros Hrun.
  destruct (GetCommittee ctx committeeID) as [com|] eqn:Hc.
  2:{ unfold SubmitProposal, bind in Hrun. simpl in Hrun. by rewrite Hc in Hrun. }
  destruct (HasMember com proposer) eqn:Hm.
  2:{ unfold SubmitProposal, bind in Hrun. simpl in Hrun.
      by rewrite Hc, Hm in Hrun. }
  destruct (HasPermissionsFor com p) eqn:Hp.
  2:{ unfold SubmitProposal, bind in Hrun. simpl in Hrun.
      by rewrite Hc, Hm, Hp in Hrun. }
  destruct (ValidatePubProposal k p ctx) as [[[]|err|r] ctx1] eqn:Hv.
  - rewrite (SubmitProposal_success _ _ _ _ _ _ _ Hc Hm Hp Hv) in Hrun.
    injection Hrun as <- <-. exists com, ctx1. by repeat split.
  - unfold SubmitProposal, bind at 1 in Hrun. simpl in Hrun.
    rewrite Hc, Hm, Hp in Hrun. simpl in Hrun.
    unfold bind at 1 in Hrun. by rewrite Hv in Hrun.
  - by destruct (ValidatePubProposal_no_panic k p ctx r ctx1).
Qed.

(** A submission either leaves the store as it was or makes the two
    writes of a new proposal. *)
Lemma SubmitProposal_ms k proposer committeeID p ctx :
  ms (snd (SubmitProposal k proposer committeeID p ctx)) = ms ctx
  \/ exists pr,
       pr_ID pr = nextProposalID (ms ctx)
       /\ ms (snd (SubmitProposal k proposer committeeID p ctx)) =
          applyOp (OpSetNextProposalID (wrap64 (nextProposalID (ms ctx) + 1)))
            (applyOp (OpSetProposal pr) (ms ctx)).
Proof.
  destruct (SubmitProposal k proposer committeeID p ctx) as [[id|e|r] ctx'] eqn:Hrun.
  - right. apply SubmitProposal_Ok_inv in Hrun
      as (com & ctx1 & _ & _ & _ & _ & _ & Hms & _).
    eexists. split; [|exact Hms]. done.
  - left. revert Hrun. unfold SubmitProposal, bind at 1. simpl.
    destruct (GetCommittee ctx committeeID) as [com|]; [|by intros [= _ <-]].
    destruct (HasMember com proposer); simpl; [|by intros [= _ <-]].
    destruct (HasPermissionsFor com p); simpl; [|by intros [= _ <-]].
    unfold bind at 1.
    destruct (ValidatePubProposal_frame k p ctx) as [w Hw].
    destruct (ValidatePubProposal k p ctx) as [[[]|err|r] ctx1]; simpl in Hw; subst.
    + discriminate.
    + by intros [= _ <-].
    + discriminate.
  - left. revert Hrun. unfold SubmitProposal, bind at 1. simpl.
    destruct (GetCommittee ctx committeeID) as [com|]; [|discriminate].
    destruct (HasMember com proposer); simpl; [|discriminate].
    destruct (HasPermissionsFor com p); simpl; [|discriminate].
    unfold bind at 1.
    destruct (ValidatePubProposal_frame k p ctx) as [w Hw].
    destruct (ValidatePubProposal k p ctx) as [[[]|err|r'] ctx1]; simpl in Hw; subst.
    + discriminate.
    + discriminate.
    + by intros [= _ <-].
Qed.

(** X17: a submission that succeeds returns the ID the counter held and
    stores, under this ID, the proposal with the content, the committee's
    ID and the deadline [block time + ProposalDuration]; it emits one
    submission event and leaves the votes and committees as they were.
    On a store whose proposals all have IDs below the counter the ID was
    free, and every other proposal is as before. *)
Theorem SubmitProposal_stores k proposer committeeID p ctx id ctx' :
  SubmitProposal k proposer committeeID p ctx = (Ok id, ctx') ->
  ids_below_counter (ms ctx) ->
  exists com,
    GetCommittee ctx committeeID = Some com
    /\ id = nextProposalID (ms ctx)
    /\ GetProposal ctx id = None
    /\ GetProposal ctx' id =
       Some {| pr_PubProposal := p; pr_ID := id; pr_CommitteeID := committeeID;
               Deadline := blockTime ctx + ProposalDuration com |}
    /\ (forall other, other <> id -> GetProposal ctx' other = GetProposal ctx other)
    /\ votes (ms ctx') = votes (ms ctx)
    /\ committees (ms ctx') = committees (ms ctx)
    /\ events ctx' =
       (events ctx ++
          [{| ev_Type := EventTypeProposalSubmit;
              ev_Attributes :=
                [(AttributeKeyCommitteeID, Sprintf_d (com_ID com));
                 (AttributeKeyProposalID, Sprintf_d id)] |}])%list.
Proof.
  intros Hrun Hbelow.
  apply SubmitProposal_Ok_inv in Hrun
    as (com & ctx1 & Hc & _ & _ & _ & -> & Hms & _ & Hev).
  exists com. unfold GetProposal. rewrite Hms. simpl.
  repeat split; try done.
  - destruct (proposals (ms ctx) !! nextProposalID (ms ctx)) as [pr|] eqn:Hl; [|done].
    pose proof (Hbelow _ _ Hl) as Hlt. simpl in Hlt. lia.
  - apply lookup_insert_eq.
  - intros other Hne. by apply lookup_insert_ne.
Qed.

(** X18: right after a submission, at the same block time, the vote of a
    member of the committee on the new proposal is accepted when the
    committee's [ProposalDuration] is positive, and refused with
    [ErrProposalExpired] when it is zero or negative: the proposal is
    then born expired. *)
Theorem vote_on_fresh_proposal k proposer committeeID p ctx id ctx' voter com :
  SubmitProposal k proposer committeeID p ctx = (Ok id, ctx') ->
  GetCommittee ctx committeeID = Some com ->
  HasMember com voter = true ->
  (0 < ProposalDuration com ->
   fst (AddVote k id voter ctx') = Ok tt)
  /\ (ProposalDuration com <= 0 ->
      AddVote k id voter ctx'
      = (Err (ErrProposalExpired (codespace k) (blockTime ctx)
                (blockTime ctx + ProposalDuration com)), ctx')).
Proof.
  intros Hrun Hc Hm.
  apply SubmitProposal_Ok_inv in Hrun
    as (com' & ctx1 & Hc' & _ & _ & _ & -> & Hms & Hbt & _).
  rewrite Hc in Hc'. injection Hc' as <-.
  assert (Hg : GetProposal ctx' (nextProposalID (ms ctx)) =
               Some {| pr_PubProposal := p; pr_ID := nextProposalID (ms ctx);
                       pr_CommitteeID := committeeID;
                       Deadline := blockTime ctx + ProposalDuration com |}).
  { unfold GetProposal. rewrite Hms. simpl. apply lookup_insert_eq. }
  assert (Hcom : GetCommittee ctx' committeeID = Some com).
  { unfold GetCommittee in *. by rewrite Hms. }
  split; intros Hd.
  - rewrite (AddVote_success k ctx' _ voter _ com Hg); try done.
    unfold HasExpiredBy. simpl. rewrite Hbt. apply Z.leb_gt. lia.
  - unfold AddVote, bind. simpl. rewrite Hg. unfold HasExpiredBy. simpl.
    rewrite Hbt. rewrite (proj2 (Z.leb_le _ _)) by lia. done.
Qed.

Lemma store_inv_purge s id : store_inv s -> store_inv (purge id s).
Proof.
  intros (Hp & Hv & Hb). repeat split.
  - unfold proposals_wf, purge. simpl. by apply map_Forall_delete.
  - by apply votes_wf_purge.
  - unfold ids_below_counter, purge. simpl. by apply map_Forall_delete.
Qed.

Lemma store_inv_sweep now l s : store_inv s -> store_inv (sweep now l s).
Proof.
  revert s. induction l as [|pr l IH]; intros s Hinv; simpl; [done|].
  apply IH. destruct (HasExpiredBy pr now); [by apply store_inv_purge|done].
Qed.

(** X19: the operations of the keeper that write to the store keep it
    well-formed: with every proposal under its ID, every vote under its
    (ProposalID, Voter) pair and every proposal ID below the counter
    before [AddVote], [DeleteProposalAndVotes], [CloseExpiredProposals],
    [ValidatePubProposal] or (as long as the counter is below 2^64 - 1)
    [SubmitProposal], the same holds after it, whatever its outcome. *)
Theorem keeper_keeps_store_inv k ctx :
  store_inv (ms ctx) ->
  (forall proposalID voter,
     store_inv (ms (snd (AddVote k proposalID voter ctx))))
  /\ (forall proposalID,
        store_inv (ms (snd (DeleteProposalAndVotes proposalID ctx))))
  /\ store_inv (ms (snd (CloseExpiredProposals ctx)))
  /\ (forall p, store_inv (ms (snd (ValidatePubProposal k p ctx))))
  /\ (forall proposer committeeID p,
        (nextProposalID (ms ctx) + 1 < 2 ^ 64)%N ->
        store_inv (ms (snd (SubmitProposal k proposer committeeID p ctx)))).
Proof.
  intros Hinv. pose proof Hinv as (Hp & Hv & Hb).
  split; [|split; [|split; [|split]]].
  - intros proposalID voter.
    destruct (AddVote k proposalID voter ctx) as [[[]|e|r] ctx'] eqn:Hrun; simpl.
    + apply AddVote_Ok_inv in Hrun. rewrite Hrun.
      destruct (applyOp_wf (OpSetVote {| ProposalID := proposalID; Voter := voter |})
                  (ms ctx) Hp Hv) as [Hp' Hv'].
      repeat split; done.
    + revert Hrun. unfold AddVote, bind. simpl.
      destruct (GetProposal ctx proposalID) as [pr|]; [|by intros [= _ <-]].
      destruct (HasExpiredBy pr (blockTime ctx)); [by intros [= _ <-]|].
      destruct (GetCommittee ctx (pr_CommitteeID pr)) as [com|]; [|by intros [= _ <-]].
      destruct (HasMember com voter); simpl; [done|by intros [= _ <-]].
    + revert Hrun. unfold AddVote, bind. simpl.
      destruct (GetProposal ctx proposalID) as [pr|]; [|done].
      destruct (HasExpiredBy pr (blockTime ctx)); [done|].
      destruct (GetCommittee ctx (pr_CommitteeID pr)) as [com|]; [|done].
      by destruct (HasMember com voter).
  - intros proposalID.
    rewrite (DeleteProposalAndVotes_run _ _ Hv). simpl. by apply store_inv_purge.
  - rewrite (CloseExpiredProposals_run _ _ Hv). simpl. by apply store_inv_sweep.
  - intros p. destruct (ValidatePubProposal_frame k p ctx) as [w ->]. done.
  - intros proposer committeeID p Hlt.
    destruct (SubmitProposal_ms k proposer committeeID p ctx)
      as [-> | (pr & Hid & ->)]; [done|].
    unfold wrap64. rewrite N.mod_small by done.
    repeat split.
    + unfold proposals_wf. simpl. by apply map_Forall_insert_2.
    + done.
    + unfold ids_below_counter. simpl. apply map_Forall_insert_2; [lia|].
      intros id' pr' Hl. pose proof (Hb _ _ Hl) as Hlt'. simpl in *. lia.
Qed.

End SubmitOutcomes.

Lemma SubmitProposal_stores_witness :
  GetProposal ex_ctx1 1 = Some ex_proposal
  /\ GetProposal ex_ctx 1 = None.
Proof.
  assert (Hbelow : ids_below_counter (ms ex_ctx)).
  { apply (bool_decide_unpack _). vm_compute. exact I. }
  destruct (SubmitProposal_stores nat ex_keeper_flaky "alice" 1%N
              (Some ex_content) ex_ctx 1%N ex_ctx1 eq_refl Hbelow)
    as (com & Hc & _ & Hfree & Hg & _).
  split; [|exact Hfree].
  rewrite Hg. injection Hc as <-. reflexivity.
Defined.

Lemma vote_on_fresh_proposal_witness :
  AddVote ex_keeper_good 2 "alice"
    (snd (SubmitProposal ex_keeper_good "alice" 3 (Some ex_content) ex_ctx_more))
  = (Err (ErrProposalExpired "committee" 0 0),
     snd (SubmitProposal ex_keeper_good "alice" 3 (Some ex_content) ex_ctx_more)).
Proof.
  apply (proj2 (vote_on_fresh_proposal nat ex_keeper_good "alice" 3%N
                  (Some ex_content) ex_ctx_more 2%N
                  (snd (SubmitProposal ex_keeper_good "alice" 3
                          (Some ex_content) ex_ctx_more))
                  "alice" ex_committee_zero eq_refl eq_refl eq_refl)).
  discriminate.
Defined.

Lemma keeper_keeps_store_inv_witness :
  store_inv (ms ex_ctx1)
  /\ store_inv (ms (snd (AddVote ex_keeper_flaky 1 "alice" ex_ctx1)))
  /\ store_inv (ms (snd (SubmitProposal ex_keeper_flaky "bob" 1
                           (Some ex_content) ex_ctx1))).
Proof.
  assert (Hinv : store_inv (ms ex_ctx1)).
  { repeat split; apply (bool_decide_unpack _); vm_compute; exact I. }
  split; [exact Hinv|].
  destruct (keeper_keeps_store_inv nat ex_keeper_flaky ex_ctx1 Hinv)
    as (Hvote & _ & _ & _ & Hsubmit).
  split; [apply Hvote|]. apply Hsubmit. reflexivity.
Defined.

(** * Further properties of the cdp genesis *)

Section ForEach.

Variables St A : Type.
Implicit Types (l : list A) (body : A -> cdp.G St unit).

(** A loop that returns has run its body, and the body has returned, for
    every element. *)
Lemma forEach_Returns_Forall (P : A -> Prop) body l st a st' :
  (forall x s b s', body x s = cdp.Returns b s' -> P x) ->
  cdp.forEach l body st = cdp.Returns a st' ->
  Forall P l.
Proof.
  intros Hbody. revert st. induction l as [|x l IH]; intros st Hrun; [done|].
  simpl in Hrun. unfold cdp.bind in Hrun.
  destruct (body x st) as [b s'|r] eqn:Hx; [|done].
  constructor; [by eapply Hbody|]. by eapply IH.
Qed.

(** A loop whose body returns for every element returns. *)
Lemma forEach_returns body l :
  Forall (fun x => returns (body x)) l -> returns (cdp.forEach l body).
Proof.
  induction 1 as [|x l Hx _ IH]; intros st; simpl.
  - by exists tt, st.
  - unfold cdp.bind. destruct (Hx st) as (b & s' & ->). apply IH.
Qed.

(** A loop panics with the panic of the first element whose body panics,
    when the body returns without a write for the elements before it. *)
Lemma forEach_first_panic body l1 x l2 st r :
  Forall (fun y => body y st = cdp.Returns tt st) l1 ->
  body x st = cdp.Panics r ->
  cdp.forEach (l1 ++ x :: l2) body st = cdp.Panics r.
Proof.
  intros Hl1 Hx. induction Hl1 as [|y l1 Hy _ IH]; simpl.
  - unfold cdp.bind. by rewrite Hx.
  - unfold cdp.bind at 1. by rewrite Hy.
Qed.

End ForEach.

Arguments forEach_Returns_Forall {St A} P body l st a st' _ _.
Arguments forEach_returns {St A} body l _.
Arguments forEach_first_panic {St A} body l1 x l2 st r _ _.

(** [collateralMap] has a key exactly for the markets of the list. *)
Lemma collateralMapOf_lookup (markets : list cdp.Market) (id : string) :
  is_Some (cdp.collateralMapOf markets !! id)
  <-> id ∈ map cdp.MarketID markets.
Proof.
  unfold cdp.collateralMapOf.
  assert (Hgen : forall (m0 : gmap string Z),
            is_Some (fold_left (fun m a => <[cdp.MarketID a := 1]> m) markets m0 !! id)
            <-> id ∈ map cdp.MarketID markets \/ is_Some (m0 !! id)).
  { induction markets as [|a markets IH]; intros m0; simpl.
    - split; [by right|]. intros [Hin|?]; [|done]. by apply elem_of_nil in Hin.
    - rewrite IH. rewrite elem_of_cons.
      destruct (decide (id = cdp.MarketID a)) as [->|Hne].
      + rewrite lookup_insert_eq. split; [|eauto]. intros _. by left; left.
      + rewrite lookup_insert_ne by done. tauto. }
  rewrite Hgen. rewrite lookup_empty. split; [|by left].
  intros [?|[? ?]]; done.
Qed.

Section GenesisOutcomes.

Variable St : Type.
Variables ModuleName LiquidatorMacc SavingsRateMacc : string.
Variables ModuleAccount Principal Deposit : Type.
Variable Principal_Add : Principal -> Principal -> Principal.
Variable CDP_String : cdp.CDP Principal -> string.
Variable k : cdp.Keeper St Principal Deposit.
Variable pk : cdp.PricefeedKeeper St.
Variable sk : cdp.SupplyKeeper St ModuleAccount.

Let InitGenesis := cdp.InitGenesis St ModuleName LiquidatorMacc SavingsRateMacc
                     ModuleAccount Principal Principal_Add Deposit CDP_String k pk sk.
Let GetModuleAccount := cdp.GetModuleAccount St ModuleAccount sk.

(** X20: [InitGenesis] returns only if the genesis state validates, the
    supply keeper has the three module accounts, every collateral of the
    parameters has its market among the markets of the pricefeed, and no
    CDP of the genesis state has the starting CDP ID; in every other case
    it panics, whatever the keepers do. *)
Theorem InitGenesis_returns_only_if gs st st' :
  InitGenesis gs st = cdp.Returns tt st' ->
  cdp.Validate Principal Deposit gs = None
  /\ (exists a b c st1 st2 st3 markets st4,
        GetModuleAccount ModuleName st = cdp.Returns (Some a) st1
        /\ GetModuleAccount LiquidatorMacc st1 = cdp.Returns (Some b) st2
        /\ GetModuleAccount SavingsRateMacc st2 = cdp.Returns (Some c) st3
        /\ cdp.pk_GetParams St pk st3 = cdp.Returns markets st4
        /\ Forall (fun col => cdp.cp_MarketID col ∈ map cdp.MarketID markets)
                  (cdp.CollateralParams (cdp.gs_Params Principal Deposit gs)))
  /\ Forall (fun c => cdp.ID Principal c <> cdp.StartingCdpID Principal Deposit gs)
            (cdp.CDPs Principal Deposit gs).
Proof.
  unfold InitGenesis, GetModuleAccount, cdp.InitGenesis.
  destruct (cdp.Validate Principal Deposit gs) as [err|]; [done|].
  unfold cdp.bind at 1.
  destruct (cdp.GetModuleAccount St ModuleAccount sk ModuleName st)
    as [[a|] st1|r1] eqn:H1; [|done|done].
  unfold cdp.bind at 1.
  destruct (cdp.GetModuleAccount St ModuleAccount sk LiquidatorMacc st1)
    as [[b|] st2|r2] eqn:H2; [|done|done].
  unfold cdp.bind at 1.
  destruct (cdp.GetModuleAccount St ModuleAccount sk SavingsRateMacc st2)
    as [[c|] st3|r3] eqn:H3; [|done|done].
  unfold cdp.bind at 1.
  destruct (cdp.pk_GetParams St pk st3) as [markets st4|r4] eqn:Hpk; [|done].
  unfold cdp.bind at 1.
  destruct (cdp.forEach _ _ st4) as [[] st5|r5] eqn:Hcheck; [|done].
  unfold cdp.bind at 1.
  destruct (cdp.SetParams _ _ _ k _ st5) as [[] st6|r6]; [|done].
  unfold cdp.bind at 1.
  destruct (cdp.forEach _ _ st6) as [[] st7|r7]; [|done].
  unfold cdp.bind at 1.
  destruct (cdp.forEach _ _ st7) as [[] st8|r8] eqn:Hcdps; [|done].
  intros _. split; [done|]. split.
  - exists a, b, c, st1, st2, st3, markets, st4. repeat split; try done.
    eapply forEach_Returns_Forall; [|exact Hcheck].
    intros col s [] s' Hbody. simpl in Hbody.
    apply collateralMapOf_lookup.
    by destruct (cdp.collateralMapOf markets !! cdp.cp_MarketID col).
  - eapply forEach_Returns_Forall; [|exact Hcdps].
    intros cdp0 s [] s' Hbody. simpl in Hbody.
    destruct (N.eqb_spec (cdp.ID Principal cdp0)
                (cdp.StartingCdpID Principal Deposit gs)); done.
Qed.

(** X21: with a genesis state that validates and the three module
    accounts in place, [InitGenesis] panics with "<denom> collateral not
    found in pricefeed" for the first collateral of the parameters whose
    market is not among the markets of the pricefeed, before any method
    of the cdp keeper is called. *)
Theorem InitGenesis_collateral_not_in_pricefeed
    gs st a b c st1 st2 st3 markets st4 known col rest :
  cdp.Validate Principal Deposit gs = None ->
  GetModuleAccount ModuleName st = cdp.Returns (Some a) st1 ->
  GetModuleAccount LiquidatorMacc st1 = cdp.Returns (Some b) st2 ->
  GetModuleAccount SavingsRateMacc st2 = cdp.Returns (Some c) st3 ->
  cdp.pk_GetParams St pk st3 = cdp.Returns markets st4 ->
  cdp.CollateralParams (cdp.gs_Params Principal Deposit gs)
    = (known ++ col :: rest)%list ->
  Forall (fun col' => cdp.cp_MarketID col' ∈ map cdp.MarketID markets) known ->
  cdp.cp_MarketID col ∉ map cdp.MarketID markets ->
  InitGenesis gs st
  = cdp.Panics (cdp.cp_Denom col ++ " collateral not found in pricefeed").
Proof.
  intros Hv H1 H2 H3 Hpk Hcols Hknown Hcol.
  unfold InitGenesis, GetModuleAccount, cdp.InitGenesis in *. rewrite Hv.
  unfold cdp.bind at 1. rewrite H1.
  unfold cdp.bind at 1. rewrite H2.
  unfold cdp.bind at 1. rewrite H3.
  unfold cdp.bind at 1. rewrite Hpk.
  unfold cdp.bind at 1. rewrite Hcols.
  rewrite (forEach_first_panic _ known col rest st4
             (cdp.cp_Denom col ++ " collateral not found in pricefeed")); [done| |].
  - eapply Forall_impl; [exact Hknown|]. intros col' Hin. simpl.
    apply collateralMapOf_lookup in Hin as [v ->]. done.
  - simpl. destruct (cdp.collateralMapOf markets !! cdp.cp_MarketID col) eqn:Hl; [|done].
    destruct Hcol. apply collateralMapOf_lookup. eauto.
Qed.

(** X22: [InitGenesis] returns when the genesis state validates, the
    supply keeper has an account for every name, the pricefeed returns
    markets among which every collateral of the parameters has its
    market, no CDP has the starting CDP ID, and no method of the cdp
    keeper panics. *)
Theorem InitGenesis_returns gs markets :
  cdp.Validate Principal Deposit gs = None ->
  (forall name st, exists a st',
     GetModuleAccount name st = cdp.Returns (Some a) st') ->
  (forall st, exists st', cdp.pk_GetParams St pk st = cdp.Returns markets st') ->
  Forall (fun col => cdp.cp_MarketID col ∈ map cdp.MarketID markets)
         (cdp.CollateralParams (cdp.gs_Params Principal Deposit gs)) ->
  Forall (fun c => cdp.ID Principal c <> cdp.StartingCdpID Principal Deposit gs)
         (cdp.CDPs Principal Deposit gs) ->
  keeper_returns k ->
  forall st, exists st', InitGenesis gs st = cdp.Returns tt st'.
Proof.
  intros Hv Hsk Hpk Hcols Hcdps
    (HSetParams & HSetTotal & HSetCDP & HIndexOwner & HRatio & HIndexRatio
     & HIncrement & HSetNext & HSetDebt & HSetGov & HSetDeposit) st.
  unfold InitGenesis, GetModuleAccount, cdp.InitGenesis in *. rewrite Hv.
  unfold cdp.bind at 1. destruct (Hsk ModuleName st) as (a & st1 & ->).
  unfold cdp.bind at 1. destruct (Hsk LiquidatorMacc st1) as (b & st2 & ->).
  unfold cdp.bind at 1. destruct (Hsk SavingsRateMacc st2) as (c & st3 & ->).
  unfold cdp.bind at 1. destruct (Hpk st3) as (st4 & ->).
  unfold cdp.bind at 1.
  match goal with
  | |- context [cdp.forEach ?l ?body st4] =>
      destruct (forEach_returns body l) with (st := st4) as ([] & st5 & ->)
  end.
  { eapply Forall_impl; [exact Hcols|]. intros col Hin s. simpl.
    apply collateralMapOf_lookup in Hin as [v ->]. by exists tt, s. }
  unfold cdp.bind at 1.
  destruct (HSetParams (cdp.gs_Params Principal Deposit gs) st5) as ([] & st6 & ->).
  unfold cdp.bind at 1.
  match goal with
  | |- context [cdp.forEach ?l ?body st6] =>
      destruct (forEach_returns body l) with (st := st6) as ([] & st7 & ->)
  end.
  { apply Forall_forall. intros cp _. apply forEach_returns.
    apply Forall_forall. intros dp _. apply HSetTotal. }
  unfold cdp.bind at 1.
  match goal with
  | |- context [cdp.forEach ?l ?body st7] =>
      destruct (forEach_returns body l) with (st := st7) as ([] & st8 & ->)
  end.
  { eapply Forall_impl; [exact Hcdps|]. intros cdp0 Hne s. simpl.
    rewrite (proj2 (N.eqb_neq _ _) Hne).
    unfold cdp.bind at 1. destruct (HSetCDP cdp0 s) as ([] & s1 & ->).
    unfold cdp.bind at 1. destruct (HIndexOwner cdp0 s1) as ([] & s2 & ->).
    unfold cdp.bind at 1.
    destruct (HRatio (cdp.Collateral Principal cdp0)
                (Principal_Add (cdp.cdp_Principal Principal cdp0)
                               (cdp.AccumulatedFees Principal cdp0)) s2)
      as (ratio & s3 & ->).
    unfold cdp.bind at 1.
    destruct (HIndexRatio (cdp.Denom (cdp.Collateral Principal cdp0))
                (cdp.ID Principal cdp0) ratio s3) as ([] & s4 & ->).
    destruct (HIncrement (cdp.Denom (cdp.Collateral Principal cdp0))
                (cdp.cdp_Principal Principal cdp0) s4) as ([] & s5 & ->).
    by exists tt, s5. }
  unfold cdp.bind at 1.
  destruct (HSetNext (cdp.StartingCdpID Principal Deposit gs) st8) as ([] & st9 & ->).
  unfold cdp.bind at 1.
  destruct (HSetDebt (cdp.DebtDenom Principal Deposit gs) st9) as ([] & st10 & ->).
  unfold cdp.bind at 1.
  destruct (HSetGov (cdp.GovDenom Principal Deposit gs) st10) as ([] & st11 & ->).
  match goal with
  | |- context [cdp.forEach ?l ?body st11] =>
      destruct (forEach_returns body l) with (st := st11) as ([] & st12 & ->)
  end.
  { apply Forall_forall. intros d _. apply HSetDeposit. }
  by exists st12.
Qed.

End GenesisOutcomes.

Lemma InitGenesis_returns_only_if_witness :
  ex_InitGenesis_bnb (ex_genesis_cdps 3) ["cdp"; "liquidator"; "savings"]
  = cdp.Returns tt ["cdp"; "liquidator"; "savings"]
  /\ Forall (fun c => cdp.ID Z c <> 3%N) (cdp.CDPs Z unit (ex_genesis_cdps 3)).
Proof.
  split; [reflexivity|].
  apply (proj2 (proj2 (InitGenesis_returns_only_if (list string)
           "cdp" "liquidator" "savings" string Z unit Z.add (fun _ => "cdp")
           ex_cdp_keeper ex_pk_bnb ex_sk (ex_genesis_cdps 3)
           ["cdp"; "liquidator"; "savings"] ["cdp"; "liquidator"; "savings"]
           eq_refl))).
Defined.

Lemma InitGenesis_collateral_not_in_pricefeed_witness :
  ex_InitGenesis_bnb ex_genesis_btc ["cdp"; "liquidator"; "savings"]
  = cdp.Panics "btc collateral not found in pricefeed".
Proof.
  apply (InitGenesis_collateral_not_in_pricefeed (list string)
           "cdp" "liquidator" "savings" string Z unit Z.add (fun _ => "cdp")
           ex_cdp_keeper ex_pk_bnb ex_sk ex_genesis_btc
           ["cdp"; "liquidator"; "savings"] "cdp" "liquidator" "savings"
           ["cdp"; "liquidator"; "savings"] ["cdp"; "liquidator"; "savings"]
           ["cdp"; "liquidator"; "savings"] [{| cdp.MarketID := "bnb:usd" |}]
           ["cdp"; "liquidator"; "savings"]
           [{| cdp.cp_Denom := "bnb"; cdp.cp_MarketID := "bnb:usd" |}]
           {| cdp.cp_Denom := "btc"; cdp.cp_MarketID := "btc:usd" |} []);
    try reflexivity.
  - constructor; [|constructor]. apply (bool_decide_unpack _). vm_compute. exact I.
  - apply (bool_decide_unpack _). vm_compute. exact I.
Defined.

Lemma InitGenesis_returns_witness :
  exists st',
    cdp.InitGenesis (list string) "cdp" "liquidator" "savings" string Z Z.add unit
      (fun _ => "cdp") ex_cdp_keeper ex_pk_bnb ex_sk_all (ex_genesis_cdps 3) []
    = cdp.Returns tt st'.
Proof.
  apply (InitGenesis_returns (list string) "cdp" "liquidator" "savings"
           string Z unit Z.add (fun _ => "cdp") ex_cdp_keeper ex_pk_bnb ex_sk_all
           (ex_genesis_cdps 3) [{| cdp.MarketID := "bnb:usd" |}]).
  - reflexivity.
  - intros name st. exists name, st. reflexivity.
  - intros st. exists st. reflexivity.
  - constructor; [|constructor]. apply (bool_decide_unpack _). vm_compute. exact I.
  - constructor; [discriminate|]. constructor; [discriminate|]. constructor.
  - repeat split; intros; intros st; exists tt || exists 0; exists st; reflexivity.
Defined.

Section ExportProperties.

Variables St Principal Deposit DistributionTime Exported : Type.
Variable DefaultPreviousDistributionTime : DistributionTime.
Variable NewGenesisState :
  cdp.Params -> list (cdp.CDP Principal) -> list Deposit -> N -> string ->
  string -> DistributionTime -> Exported.
Variable k : cdp.KeeperReads St Principal Deposit DistributionTime.

(** The callback that appends to a slice, over all the records. *)
Lemma iterateS_collect {A} (l acc : list A) (st : St) :
  cdp.iterateS St (fun x acc => cdp.ret ((acc ++ [x])%list, false)) l acc st
  = cdp.Returns (acc ++ l)%list st.
Proof.
  revert acc. induction l as [|x l IH]; intros acc; simpl.
  - by rewrite app_nil_r.
  - unfold cdp.bind, cdp.ret. simpl. rewrite IH. by rewrite <- app_assoc.
Qed.

(** X23: when the reads of the keeper return and leave the state as it
    is, [ExportGenesis] returns the genesis state built from the
    parameters, the CDPs in the order the iterator finds them, the
    deposits of these CDPs, CDP by CDP in the same order, the next CDP
    ID, the two denoms and the time of the previous savings distribution,
    or the default time when none is stored. *)
Theorem ExportGenesis_exports st params cdps deps cdpID debtDenom govDenom previous :
  cdp.GetParams _ _ _ _ k st = cdp.Returns params st ->
  cdp.cdpRecords _ _ _ _ k st = cdp.Returns cdps st ->
  Forall (fun c => cdp.depositRecords _ _ _ _ k (cdp.ID Principal c) st
                   = cdp.Returns (deps c) st) cdps ->
  cdp.GetNextCdpID _ _ _ _ k st = cdp.Returns cdpID st ->
  cdp.GetDebtDenom _ _ _ _ k st = cdp.Returns debtDenom st ->
  cdp.GetGovDenom _ _ _ _ k st = cdp.Returns govDenom st ->
  cdp.GetPreviousSavingsDistribution _ _ _ _ k st = cdp.Returns previous st ->
  cdp.ExportGenesis St Principal Deposit DistributionTime
    DefaultPreviousDistributionTime Exported NewGenesisState k st
  = cdp.Returns
      (NewGenesisState params cdps (flat_map deps cdps) cdpID debtDenom govDenom
         (match previous with
          | Some t => t
          | None => DefaultPreviousDistributionTime
          end))
      st.
Proof.
  intros Hparams Hcdps Hdeps Hid Hdebt Hgov Hprev.
  unfold cdp.ExportGenesis.
  unfold cdp.bind at 1. rewrite Hparams.
  unfold cdp.bind at 1, cdp.IterateAllCdps. unfold cdp.bind at 1. rewrite Hcdps.
  assert (Hiter : forall acc,
    cdp.iterateS St
      (fun c (acc : list (cdp.CDP Principal) * list Deposit) =>
         cdp.bind
           (cdp.IterateDeposits St Principal Deposit DistributionTime k
              (cdp.ID Principal c)
              (fun deposit deposits => cdp.ret ((deposits ++ [deposit])%list, false))
              (snd acc))
           (fun deposits => cdp.ret (((fst acc ++ [c])%list, deposits), false)))
      cdps acc st
    = cdp.Returns ((fst acc ++ cdps)%list, (snd acc ++ flat_map deps cdps)%list) st).
  { clear Hcdps. induction Hdeps as [|c cdps Hc _ IH]; intros [cs ds]; simpl.
    - by rewrite !app_nil_r.
    - unfold cdp.bind at 1. unfold cdp.bind at 1, cdp.IterateDeposits.
      unfold cdp.bind at 1. rewrite Hc. rewrite iterateS_collect. simpl.
      rewrite IH. simpl. by rewrite <- !app_assoc. }
  rewrite Hiter. simpl.
  unfold cdp.bind at 1. rewrite Hid.
  unfold cdp.bind at 1. rewrite Hdebt.
  unfold cdp.bind at 1. rewrite Hgov.
  unfold cdp.bind at 1. rewrite Hprev. done.
Qed.

End ExportProperties.

Lemma ExportGenesis_exports_witness :
  cdp.ExportGenesis _ _ _ _ 0 _ (fun p cs ds id d g t => (cs, ds, id, t)) ex_reads
    [(ex_cdp 1, [7; 8]); (ex_cdp 2, [9])]
  = cdp.Returns ([ex_cdp 1; ex_cdp 2], [7; 8; 9], 3%N, 0)
      [(ex_cdp 1, [7; 8]); (ex_cdp 2, [9])].
Proof.
  apply (ExportGenesis_exports _ _ _ _ _ 0
           (fun p cs ds id d g t => (cs, ds, id, t)) ex_reads
           [(ex_cdp 1, [7; 8]); (ex_cdp 2, [9])]
           {| cdp.CollateralParams := []; cdp.DebtParams := [] |}
           [ex_cdp 1; ex_cdp 2]
           (fun c => if N.eqb (cdp.ID Z c) 1 then [7; 8] else [9])
           3%N "debt" "ukava" None); try reflexivity.
  constructor; [reflexivity|]. constructor; [reflexivity|]. constructor.
Defined.

Lemma EnactProposal_Ok_iff_witness :
  EnactProposal ex_ErrorString ex_keeper_good 1 ex_ctx1
  = (Ok tt, with_ms (set_others (insert "debt_limit" "1000") ex_store1) ex_ctx1).
Proof.
  apply (proj2 (EnactProposal_Ok_iff nat ex_ErrorString ex_keeper_good ex_ctx1 1%N
                  (with_ms (set_others (insert "debt_limit" "1000") ex_store1)
                           ex_ctx1))).
  exists ex_proposal, ex_content, ex_good, ex_ctx1.
  repeat split; reflexivity.
Defined.

Lemma AddVote_Ok_iff_witness :
  AddVote ex_keeper_flaky 1 "alice" ex_ctx1 = (Ok tt, ex_ctx_voted)
  /\ forall ctx', AddVote ex_keeper_flaky 1 "dave" ex_ctx1
                  = (Err (ErrUnauthorized "voter must be a member of committee"), ctx')
                  -> ctx' = ex_ctx1.
Proof.
  destruct (AddVote_Ok_iff nat ex_keeper_flaky 1%N "alice" ex_ctx1) as (Hok & _ & _).
  destruct (AddVote_Ok_iff nat ex_keeper_flaky 1%N "dave" ex_ctx1) as (_ & Herr & _).
  split.
  - apply Hok. exists ex_proposal, ex_committee. repeat split; reflexivity.
  - intros ctx'. apply Herr.
Defined.

Lemma GetProposalResult_reads_only_witness :
  GetProposalResult ex_keeper_flaky 7 ex_ctx1
  = (Err (ErrUnknownProposal "committee" 7), ex_ctx1)
  /\ GetProposalResult ex_keeper_flaky 1 ex_ctx_orphan
     = (Err (ErrUnknownCommittee "committee" 1), ex_ctx_orphan).
Proof.
  destruct (GetProposalResult_reads_only nat ex_keeper_flaky ex_ctx1 7%N)
    as (Hctx & Hunknown & _).
  destruct (GetProposalResult_reads_only nat ex_keeper_flaky ex_ctx_orphan 1%N)
    as (Hctx' & _ & Hcom).
  split.
  - rewrite (surjective_pairing (GetProposalResult ex_keeper_flaky 7 ex_ctx1)).
    rewrite Hctx, (Hunknown eq_refl). reflexivity.
  - rewrite (surjective_pairing (GetProposalResult ex_keeper_flaky 1 ex_ctx_orphan)).
    rewrite Hctx', (Hcom ex_proposal eq_refl eq_refl). reflexivity.
Defined.
